(** * BaselineSystem (lightning/systems/semi/Baseline.py)

    A shallow embedding of the orchestration layer that wires the embedding
    module, the text encoder, the optional codebook-matching module, the
    acoustic model and the loss function together.

    The neural submodules and the tensor library are external to the file
    under study; they are kept abstract behind the [Backend] interface.  The
    Python object store (module objects, parameters, attribute bindings) is
    modelled explicitly, because [build_model] aliases one parameter object
    under two attribute paths. *)

From Stdlib Require Import ZArith Floats.
From stdpp Require Import gmap strings list pretty.

Local Open Scope string_scope.
Local Open Scope Z_scope.
Local Set Warnings "-register-all".

(** ** Python values *)

Abbreviation loc := positive.

(** Exceptions that the modelled code can raise or let through. *)
Inductive exn : Type :=
  | AssertionError (msg : string)
  | KeyError (key : string)
  | AttributeError (attr : string)
  | IndexError
  | TypeError
  | ValueError
  | RuntimeError
  | Raised (info : string).

Inductive result (A : Type) : Type :=
  | Ok (a : A)
  | Raise (e : exn).

Arguments Ok {A} a.
Arguments Raise {A} e.

(** Configuration data, as loaded from the YAML files: nested mappings over
    scalars.  Constructor arguments of the submodules are of this kind
    too. *)
Inductive cfg : Type :=
  | CNone
  | CBool (b : bool)
  | CInt (z : Z)
  | CFloat (f : float)
  | CStr (s : string)
  | CList (l : list cfg)
  | CDict (d : list (string * cfg)).

(** Run-time data: batch elements, module inputs and outputs.  [T] is the
    tensor type of the backend. *)
Inductive val (T : Type) : Type :=
  | VNone
  | VBool (b : bool)
  | VInt (z : Z)
  | VStr (s : string)
  | VTensor (t : T)
  | VSlice (lo hi : Z)
  | VTuple (l : list (val T))
  | VList (l : list (val T)).

Arguments VNone {T}.
Arguments VBool {T} b.
Arguments VInt {T} z.
Arguments VStr {T} s.
Arguments VTensor {T} t.
Arguments VSlice {T} lo hi.
Arguments VTuple {T} l.
Arguments VList {T} l.

(** Classes instantiated by [build_model]. *)
Inductive module_class : Type :=
  | MultilingualEmbedding
  | TextEncoder
  | FastSpeech2
  | FastSpeech2Loss
  | SoftMultiAttCodebook.

(** Objects of the store: a parameter holding tensor data, or a module
    object with its constructor arguments and the attributes bound on it
    from this file. *)
Inductive obj (T : Type) : Type :=
  | OParam (data : T)
  | OModule (cls : module_class) (ctor_args : list (string * cfg))
            (attrs : gmap string loc).

Arguments OParam {T} data.
Arguments OModule {T} cls ctor_args attrs.

(** ** The external collaborators *)

Class Backend := {
  Tensor : Type;
  NdArray : Type;
  Scalar : Type;
  (** everything the framework keeps besides the object store: random
      generator, train/eval mode, buffers *)
  Ext : Type;
  (* numpy *)
  np_shape : NdArray → list Z;
  (* torch *)
  from_numpy : NdArray → Tensor;
  to_device : Tensor → Tensor;
  t_long : Tensor → Tensor;
  unsqueeze : Tensor → Z → Tensor;
  LongTensor : list Z → Tensor;
  tensor_max : Tensor → Tensor;
  (** the slices along the first axis; [None] for a 0-dimensional tensor *)
  tensor_rows : Tensor → option (list Tensor);
  randn : Z → Z → Ext → Tensor * Ext;
  item : Tensor → option Scalar;
  (* text.define, lightning.build *)
  LANG_NAME2ID : gmap string Z;
  build_all_speakers : cfg → result cfg;
  build_id2symbols : cfg → result cfg;
  (** [forward l args kwargs grad heap ext]: calling the module object at
      [l] on positional and keyword arguments *)
  forward : loc → list (val Tensor) → list (string * val Tensor) → bool →
            gmap loc (obj Tensor) → Ext → result (val Tensor) * Ext;
}.

(** ** Python sequence and mapping primitives *)

(** [d[k]] on a mapping *)
Definition assoc (d : list (string * cfg)) (k : string) : option cfg :=
  snd <$> List.find (λ kv, String.eqb (fst kv) k) d.

Definition getitem (c : cfg) (k : string) : result cfg :=
  match c with
  | CDict d =>
      match assoc d k with
      | Some x => Ok x
      | None => Raise (KeyError k)
      end
  | _ => Raise TypeError
  end.

(** truth value of a configuration entry, [if c:] *)
Definition truthy (c : cfg) : bool :=
  match c with
  | CNone => false
  | CBool b => b
  | CInt z => negb (z =? 0)
  | CFloat f => negb (f =? 0)%float
  | CStr s => negb (String.eqb s "")
  | CList l => negb (Nat.eqb (length l) 0)
  | CDict d => negb (Nat.eqb (length d) 0)
  end.

Section Sequences.
Context {A : Type}.

(** [seq[i]] on a tuple or list, negative indices counting from the end *)
Definition py_index (l : list A) (i : Z) : result A :=
  let n := Z.of_nat (length l) in
  let j := if i <? 0 then i + n else i in
  if (0 <=? j) && (j <? n) then
    match l !! Z.to_nat j with
    | Some v => Ok v
    | None => Raise IndexError
    end
  else Raise IndexError.

(** a slice bound, clamped into [0, len] the way Python does *)
Definition clamp (n : Z) (i : Z) : Z :=
  if i <? 0 then Z.max (i + n) 0 else Z.min i n.

(** [seq[lo:hi]]; a missing bound is [None] *)
Definition py_slice (l : list A) (lo hi : option Z) : list A :=
  let n := Z.of_nat (length l) in
  let a := from_option (clamp n) 0 lo in
  let b := from_option (clamp n) n hi in
  take (Z.to_nat (b - a)) (drop (Z.to_nat a) l).
End Sequences.

(** ** The world the system runs in *)

(** An attribute bound on [self]: configuration data or a reference into
    the object store. *)
Inductive attr : Type :=
  | ACfg (c : cfg)
  | ARef (l : loc).

Section Baseline.
Context `{B : Backend}.

Abbreviation value := (val Tensor).
Abbreviation kwargs := (list (string * val Tensor)).

(** What an observer of a run can see: submodule calls with their
    arguments and the gradient mode they ran in, lookups in the language
    table, and metrics pushed to the logger. *)
Inductive event : Type :=
  | EvForward (name : string) (l : loc) (args : list value) (kw : kwargs)
              (grad : bool)
  | EvLookup (key : string)
  | EvLog (metrics : list (string * Scalar)) (sync_dist : bool)
          (batch_size : cfg).

Record World : Type := mkWorld {
  self : gmap string attr;
  heap : gmap loc (obj Tensor);
  trace : list event;
  grad_enabled : bool;
  ext : Ext;
}.

Definition with_self (f : gmap string attr → gmap string attr) (w : World) :=
  mkWorld (f (self w)) (heap w) (trace w) (grad_enabled w) (ext w).
Definition with_heap (f : gmap loc (obj Tensor) → gmap loc (obj Tensor))
    (w : World) :=
  mkWorld (self w) (f (heap w)) (trace w) (grad_enabled w) (ext w).
Definition with_event (e : event) (w : World) :=
  mkWorld (self w) (heap w) (trace w ++ [e])%list (grad_enabled w) (ext w).
Definition with_grad (g : bool) (w : World) :=
  mkWorld (self w) (heap w) (trace w) g (ext w).
Definition with_ext (x : Ext) (w : World) :=
  mkWorld (self w) (heap w) (trace w) (grad_enabled w) x.

(** Computations: they may raise, and they keep the effects performed up
    to the point where they did. *)
Definition M (A : Type) : Type := World → result A * World.

Definition ret {A} (a : A) : M A := λ w, (Ok a, w).
Definition raise {A} (e : exn) : M A := λ w, (Raise e, w).
Definition bind {A C} (m : M A) (k : A → M C) : M C :=
  λ w, match m w with
       | (Ok a, w') => k a w'
       | (Raise e, w') => (Raise e, w')
       end.
Definition lift {A} (r : result A) : M A := λ w, (r, w).

Notation "x ← m ; k" := (bind m (λ x, k))
  (at level 20, m at level 100, k at level 200, only parsing).
Notation "' p ← m ; k" := (bind m (λ x, match x with p => k end))
  (at level 20, p pattern, m at level 100, k at level 200, only parsing).
Notation "m ;; k" := (bind m (λ _, k))
  (at level 100, k at level 200, right associativity, only parsing).

Fixpoint mapM {A C} (f : A → M C) (l : list A) : M (list C) :=
  match l with
  | [] => ret []
  | a :: l' => c ← f a; cs ← mapM f l'; ret (c :: cs)
  end.

(** *** Attributes of [self] *)

Definition getattr (name : string) : M attr :=
  λ w, match self w !! name with
       | Some a => (Ok a, w)
       | None => (Raise (AttributeError name), w)
       end.

Definition getattr_cfg (name : string) : M cfg :=
  a ← getattr name;
  match a with ACfg c => ret c | ARef _ => raise TypeError end.

Definition getattr_ref (name : string) : M loc :=
  a ← getattr name;
  match a with ARef l => ret l | ACfg _ => raise TypeError end.

Definition setattr (name : string) (a : attr) : M unit :=
  λ w, (Ok tt, with_self (insert name a) w).

(** *** The object store *)

Definition alloc (o : obj Tensor) : M loc :=
  λ w, let l := fresh (dom (heap w)) in
       (Ok l, with_heap (insert l o) w).

(** [cls(args)]: the constructors of the submodules are external; a
    construction yields a new object that remembers its class and
    arguments. *)
Definition new_module (cls : module_class) (args : list (string * cfg))
    : M loc :=
  alloc (OModule cls args ∅).

(** [torch.randn(rows, cols)] *)
Definition torch_randn (rows cols : cfg) : M Tensor :=
  match rows, cols with
  | CInt r, CInt c =>
      if (0 <=? r) && (0 <=? c) then
        λ w, let '(t, x) := randn r c (ext w) in (Ok t, with_ext x w)
      else raise RuntimeError
  | _, _ => raise TypeError
  end.

(** [nn.Parameter(t)] *)
Definition new_parameter (t : Tensor) : M loc := alloc (OParam t).

(** [o.name = target] on a module object of the store *)
Definition setattr_obj (o : loc) (name : string) (target : loc) : M unit :=
  λ w, match heap w !! o with
       | Some (OModule cls args attrs) =>
           (Ok tt,
            with_heap (insert o (OModule cls args (<[name:=target]> attrs))) w)
       | _ => (Raise (AttributeError name), w)
       end.

(** *** External calls *)

(** a call of the module [f] that was read from [self.name], on positional
    and keyword arguments *)
Definition call (name : string) (f : loc) (args : list value) (kw : kwargs)
    : M value :=
  λ w, let '(r, x) := forward f args kw (grad_enabled w) (heap w) (ext w) in
       (r, with_ext x (with_event (EvForward name f args kw (grad_enabled w)) w)).

(** [LANG_NAME2ID[key]] *)
Definition lang_name2id (key : string) : M Z :=
  λ w, let w' := with_event (EvLookup key) w in
       match LANG_NAME2ID !! key with
       | Some i => (Ok i, w')
       | None => (Raise (KeyError key), w')
       end.

(** [self.log_dict(metrics, sync_dist=..., batch_size=...)] *)
Definition log_dict (metrics : list (string * Scalar)) (sync_dist : bool)
    (batch_size : cfg) : M unit :=
  λ w, (Ok tt, with_event (EvLog metrics sync_dist batch_size) w).

(** [with torch.no_grad(): body]; the previous mode is restored on exit,
    also when the body raises. *)
Definition no_grad {A} (body : M A) : M A :=
  λ w, let '(r, w') := body (with_grad false w) in
       (r, with_grad (grad_enabled w) w').

(** *** Run-time values *)

(** [v[i]] *)
Definition subscript (v : value) (i : Z) : result value :=
  match v with
  | VTuple l | VList l => py_index l i
  | VTensor t =>
      match tensor_rows t with
      | Some rows =>
          match py_index rows i with
          | Ok r => Ok (VTensor r)
          | Raise e => Raise e
          end
      | None => Raise IndexError
      end
  | _ => Raise TypeError
  end.

(** [a, b = v] *)
Definition unpack2 (v : value) : result (value * value) :=
  match v with
  | VTuple l | VList l =>
      match l with
      | [a; b] => Ok (a, b)
      | _ => Raise ValueError
      end
  | VTensor t =>
      match tensor_rows t with
      | Some [a; b] => Ok (VTensor a, VTensor b)
      | Some _ => Raise ValueError
      | None => Raise TypeError
      end
  | _ => Raise TypeError
  end.

(** [v.item()] *)
Definition val_item (v : value) : result Scalar :=
  match v with
  | VTensor t =>
      match item t with
      | Some s => Ok s
      | None => Raise RuntimeError
      end
  | _ => Raise (AttributeError "item")
  end.

(** [len(a)] on an array *)
Definition np_len (a : NdArray) : result Z :=
  match np_shape a with
  | n :: _ => Ok n
  | [] => Raise TypeError
  end.

(** [d[k]] on a dictionary of values *)
Definition dict_get (d : list (string * value)) (k : string) : result value :=
  match List.find (λ kv, String.eqb (fst kv) k) d with
  | Some kv => Ok (snd kv)
  | None => Raise (KeyError k)
  end.

(** ** BaselineSystem *)

(** [self.name[k1][k2]...] *)
Definition config (name : string) (path : list string) : M cfg :=
  c ← getattr_cfg name;
  lift (foldl (λ r k, match r with Ok c' => getitem c' k | Raise e => Raise e end)
              (Ok c) path).

Definition build_configs : M unit :=
  emb_type ← config "model_config" ["speaker_emb"];
  dc ← getattr_cfg "data_configs";
  speakers ← lift (build_all_speakers dc);
  setattr "spk_config"
    (ACfg (CDict [("emb_type", emb_type); ("speakers", speakers)]));;
  b ← config "train_config" ["optimizer"; "batch_size"];
  setattr "bs" (ACfg b).

Definition build_model : M unit :=
  um ← config "model_config" ["use_matching"];
  setattr "use_matching" (ACfg um);;
  encoder_dim ← config "model_config" ["transformer"; "encoder_hidden"];
  dc ← getattr_cfg "data_configs";
  id2symbols ← lift (build_id2symbols dc);
  em ← new_module MultilingualEmbedding
         [("id2symbols", id2symbols); ("dim", encoder_dim)];
  setattr "embedding_model" (ARef em);;
  tc ← config "model_config" ["text_encoder"];
  te ← new_module TextEncoder [("config", tc)];
  setattr "text_encoder" (ARef te);;
  mc ← getattr_cfg "model_config";
  spk ← getattr_cfg "spk_config";
  m ← new_module FastSpeech2 [("model_config", mc); ("spk_config", spk)];
  setattr "model" (ARef m);;
  mc ← getattr_cfg "model_config";
  lf ← new_module FastSpeech2Loss [("model_config", mc)];
  setattr "loss_func" (ARef lf);;
  use ← getattr_cfg "use_matching";
  if truthy use then
    size ← config "model_config" ["matching"; "codebook_size"];
    dim ← config "model_config" ["matching"; "dim"];
    t ← torch_randn size dim;
    p ← new_parameter t;
    setattr "shared_emb_banks" (ARef p);;
    size ← config "model_config" ["matching"; "codebook_size"];
    dim ← config "model_config" ["matching"; "dim"];
    nhead ← config "model_config" ["matching"; "nhead"];
    tm ← new_module SoftMultiAttCodebook
           [("codebook_size", size); ("embed_dim", dim); ("num_heads", nhead)];
    setattr "text_matching" (ARef tm);;
    banks ← getattr_ref "shared_emb_banks";
    tm ← getattr_ref "text_matching";
    setattr_obj tm "emb_banks" banks
  else ret tt.

(** The [nn.ModuleList] is represented by the list of the module objects
    it holds. *)
Definition build_optimized_model : M (list loc) :=
  te ← getattr_ref "text_encoder";
  m ← getattr_ref "model";
  em ← getattr_ref "embedding_model";
  let opt_modules := [te; m; em] in
  use ← getattr_cfg "use_matching";
  if truthy use then
    tm ← getattr_ref "text_matching";
    ret (opt_modules ++ [tm])%list
  else ret opt_modules.

(** the lines shared by the three forward paths:
    [if self.use_matching: emb_texts, _ = self.text_matching(emb_texts)] *)
Definition match_texts (emb_texts : value) : M value :=
  use ← getattr_cfg "use_matching";
  if truthy use then
    f ← getattr_ref "text_matching";
    r ← call "text_matching" f [emb_texts] [];
    '(emb_texts, _) ← lift (unpack2 r);
    ret emb_texts
  else ret emb_texts.

Definition loss_dict_of (l0 l1 l2 l3 l4 l5 : value) : list (string * value) :=
  [("Total Loss", l0); ("Mel Loss", l1); ("Mel-Postnet Loss", l2);
   ("Pitch Loss", l3); ("Energy Loss", l4); ("Duration Loss", l5)].

Definition common_step (batch : list value) (batch_idx : Z) (train : bool)
    : M (list (string * value) * value) :=
  f ← getattr_ref "embedding_model";
  b3 ← lift (py_index batch 3);
  emb_texts ← call "embedding_model" f [b3] [];
  f ← getattr_ref "text_encoder";
  b4 ← lift (py_index batch 4);
  emb_texts ← call "text_encoder" f [emb_texts] [("lengths", b4)];
  emb_texts ← match_texts emb_texts;
  f ← getattr_ref "model";
  b2 ← lift (py_index batch 2);
  output ← call "model" f ([b2; emb_texts] ++ py_slice batch (Some 4) None)%list [];
  f ← getattr_ref "loss_func";
  loss ← call "loss_func" f
           [VTuple (py_slice batch None (Some (-1))); output] [];
  l0 ← lift (subscript loss 0);
  l1 ← lift (subscript loss 1);
  l2 ← lift (subscript loss 2);
  l3 ← lift (subscript loss 3);
  l4 ← lift (subscript loss 4);
  l5 ← lift (subscript loss 5);
  ret (loss_dict_of l0 l1 l2 l3 l4 l5, output).

Definition synth_step (batch : list value) (batch_idx : Z) : M value :=
  f ← getattr_ref "embedding_model";
  b3 ← lift (py_index batch 3);
  emb_texts ← call "embedding_model" f [b3] [];
  f ← getattr_ref "text_encoder";
  b4 ← lift (py_index batch 4);
  emb_texts ← call "text_encoder" f [emb_texts] [("lengths", b4)];
  emb_texts ← match_texts emb_texts;
  f ← getattr_ref "model";
  b2 ← lift (py_index batch 2);
  let rest := py_slice batch (Some 4) (Some 6) in
  blast ← lift (py_index batch (-1));
  call "model" f ([b2; emb_texts] ++ rest)%list
    [("lang_args", blast); ("average_spk_emb", VBool true)].

Definition batch_assert (batch : list value) : M unit :=
  if Nat.eqb (length batch) 13 then ret tt
  else raise (AssertionError
                ("data with 13 elements, but get " +:+ pretty (length batch))).

Definition on_train_batch_start (batch : list value)
    (batch_idx dataloader_idx : Z) : M unit :=
  batch_assert batch.

Definition on_validation_batch_start (batch : list value)
    (batch_idx dataloader_idx : Z) : M unit :=
  batch_assert batch.

(** the dictionaries returned by the two step functions *)
Record TrainOut : Type := mkTrainOut {
  t_loss : value;
  t_losses : list (string * value);
  t_output : value;
  t_batch : list value;
}.

Record ValOut : Type := mkValOut {
  v_loss : value;
  v_losses : list (string * value);
  v_output : value;
  v_batch : list value;
  v_synth : value;
}.

(** [{prefix + k: v.item() for k, v in d.items()}] *)
Definition metrics_of (prefix : string) (d : list (string * value))
    : M (list (string * Scalar)) :=
  mapM (λ kv, x ← lift (val_item (snd kv)); ret (prefix +:+ fst kv, x)) d.

Definition training_step (batch : list value) (batch_idx : Z) : M TrainOut :=
  '(train_loss_dict, output) ← common_step batch batch_idx true;
  loss_dict ← metrics_of "Train/" train_loss_dict;
  b ← getattr_cfg "bs";
  log_dict loss_dict true b;;
  total ← lift (dict_get train_loss_dict "Total Loss");
  ret (mkTrainOut total train_loss_dict output batch).

Definition validation_step (batch : list value) (batch_idx : Z) : M ValOut :=
  '(val_loss_dict, predictions) ← common_step batch batch_idx false;
  synth_predictions ← synth_step batch batch_idx;
  loss_dict ← metrics_of "Val/" val_loss_dict;
  b ← getattr_cfg "bs";
  log_dict loss_dict true b;;
  total ← lift (dict_get val_loss_dict "Total Loss");
  ret (mkValOut total val_loss_dict predictions batch synth_predictions).

Definition inference (spk_ref_mel_slice text : NdArray) (symbol_id : string)
    (lang_id : option string) : M value :=
  let ref := VTensor (to_device (from_numpy spk_ref_mel_slice)) in
  n0 ← lift (py_index (np_shape spk_ref_mel_slice) 0);
  let spk_args := VTuple [ref; VList [VSlice 0 n0]] in
  lang_args ← match lang_id with
              | Some name =>
                  i ← lang_name2id name;
                  ret (VTensor (to_device (LongTensor [i])))
              | None => ret VNone
              end;
  let texts := VTensor (to_device (unsqueeze (t_long (from_numpy text)) 0)) in
  n ← lift (np_len text);
  let src_lens := to_device (LongTensor [n]) in
  let max_src_len := tensor_max src_lens in
  no_grad (
    f ← getattr_ref "embedding_model";
    emb_texts ← call "embedding_model" f [texts; VStr symbol_id] [];
    f ← getattr_ref "text_encoder";
    emb_texts ← call "text_encoder" f [emb_texts]
                  [("lengths", VTensor src_lens)];
    emb_texts ← match_texts emb_texts;
    f ← getattr_ref "model";
    call "model" f
      [spk_args; emb_texts; VTensor src_lens; VTensor max_src_len]
      [("lang_args", lang_args); ("average_spk_emb", VBool true)]).

(** ** The surroundings of the system *)

(** Modelled from the spec: the training-loop driver is external to the
    repository (it owns the epoch and step loops).  It enforces the batch
    contract "at batch-start": the hook runs first, and the step runs only
    when the hook returned. *)
Definition run_train_batch (batch : list value) (batch_idx : Z) : M TrainOut :=
  on_train_batch_start batch batch_idx 0;;
  training_step batch batch_idx.

Definition run_validation_batch (batch : list value) (batch_idx : Z)
    : M ValOut :=
  on_validation_batch_start batch batch_idx 0;;
  validation_step batch batch_idx.


(** The parameter object reached through [self.shared_emb_banks] *)
Definition system_banks (w : World) : option loc :=
  match self w !! "shared_emb_banks" with
  | Some (ARef p) => Some p
  | _ => None
  end.

(** The parameter object reached through [self.text_matching.emb_banks] *)
Definition matching_banks (w : World) : option loc :=
  match self w !! "text_matching" with
  | Some (ARef tm) =>
      match heap w !! tm with
      | Some (OModule _ _ attrs) => attrs !! "emb_banks"
      | _ => None
      end
  | _ => None
  end.

(** reading the tensor held by a parameter object *)
Definition param_data (w : World) (p : loc) : option Tensor :=
  match heap w !! p with
  | Some (OParam t) => Some t
  | _ => None
  end.

(** an in-place update of a parameter object, as an optimizer step does *)
Definition param_update (p : loc) (t : Tensor) (w : World) : World :=
  with_heap (alter (λ _, OParam t) p) w.

(** ** Vocabulary of the statements *)

(** the submodule attributes of a system after [build_model] *)
Definition wired (w : World) (em te m lf : loc) (use : cfg) : Prop :=
  self w !! "embedding_model" = Some (ARef em) ∧
  self w !! "text_encoder" = Some (ARef te) ∧
  self w !! "model" = Some (ARef m) ∧
  self w !! "loss_func" = Some (ARef lf) ∧
  self w !! "use_matching" = Some (ACfg use).

(** the matching stage of a forward path returns: [e3] and [x3] are the
    texts and the external state after it, [e2] and [x2] before it *)
Definition matching_returns (w : World) (g : bool) (use : cfg) (tm : loc)
    (e2 : value) (x2 : Ext) (e3 : value) (x3 : Ext) : Prop :=
  if truthy use then
    self w !! "text_matching" = Some (ARef tm) ∧
    ∃ r a, forward tm [e2] [] g (heap w) x2 = (Ok r, x3) ∧
           unpack2 r = Ok (e3, a)
  else e3 = e2 ∧ x3 = x2.

Definition matching_events (g : bool) (use : cfg) (tm : loc) (e2 : value)
    : list event :=
  if truthy use then [EvForward "text_matching" tm [e2] [] g] else [].

(** [emits S P m]: started in a world whose [self] satisfies [S], the
    computation [m] leaves [self], the object store and the gradient mode
    as they were, and every event it appends satisfies [P g], where [g] is
    the gradient mode it was started in.  This holds for runs that return
    and for runs that raise. *)
Definition emits {A} (S : gmap string attr → Prop) (P : bool → event → Prop)
    (m : M A) : Prop :=
  ∀ w, S (self w) →
    self (m w).2 = self w ∧ heap (m w).2 = heap w ∧
    grad_enabled (m w).2 = grad_enabled w ∧
    ∃ evs, trace (m w).2 = (trace w ++ evs)%list ∧
           Forall (P (grad_enabled w)) evs.


Definition is_lookup (ev : event) : bool :=
  match ev with EvLookup _ => true | _ => false end.

Definition forward_name (ev : event) : option string :=
  match ev with EvForward name _ _ _ _ => Some name | _ => None end.

Definition forward_kwargs (ev : event) : option kwargs :=
  match ev with EvForward _ _ _ kw _ => Some kw | _ => None end.

(** [self.use_matching] is bound to a false value *)
Definition matching_off (s : gmap string attr) : Prop :=
  ∃ use, s !! "use_matching" = Some (ACfg use) ∧ truthy use = false.

(** the event is not a call of the matching module *)
Definition not_matching (g : bool) (ev : event) : Prop :=
  forward_name ev ≠ Some "text_matching".


(** the event is no lookup in the language table, and when it is a call of
    the acoustic model, its keyword arguments are [lang_args=None] and
    [average_spk_emb=True] *)
Definition language_free (g : bool) (ev : event) : Prop :=
  is_lookup ev = false ∧
  (forward_name ev = Some "model" →
   forward_kwargs ev =
     Some [("lang_args", VNone); ("average_spk_emb", VBool true)]).
(** the value bound to [lang_args] by [inference], when the lookup
    succeeds *)
Definition language_args (lang_id : option string) : option value :=
  match lang_id with
  | Some name =>
      (λ i, VTensor (to_device (LongTensor [i]))) <$> LANG_NAME2ID !! name
  | None => Some VNone
  end.

Definition lookup_events (lang_id : option string) : list event :=
  match lang_id with
  | Some name => [EvLookup name]
  | None => []
  end.
(** reading and updating the embedding bank through one of its two
    access paths *)
Definition read_via (path : World → option loc) (w : World) : option Tensor :=
  match path w with
  | Some p => param_data w p
  | None => None
  end.

Definition update_via (path : World → option loc) (t : Tensor) (w : World)
    : World :=
  match path w with
  | Some p => param_update p t w
  | None => w
  end.

(** a sequence of optimizer updates, each made through the system's
    attribute ([true]) or through the matching module's ([false]) *)
Definition apply_updates (updates : list (bool * Tensor)) (w : World) : World :=
  foldl (λ (w' : World) (u : bool * Tensor),
           update_via (if fst u then system_banks else matching_banks)
                      (snd u) w')
        w updates.

(** both access paths lead to the parameter object [p] *)
Definition aliased (p : loc) (w : World) : Prop :=
  system_banks w = Some p ∧ matching_banks w = Some p ∧
  is_Some (param_data w p).

(** the six names of the loss dictionary *)
Definition loss_names : list string :=
  ["Total Loss"; "Mel Loss"; "Mel-Postnet Loss"; "Pitch Loss";
   "Energy Loss"; "Duration Loss"].
(** [c[k1][k2]...], the chain of subscripts that [config] applies *)
Definition lookup_path (c : cfg) (path : list string) : result cfg :=
  foldl (λ r k, match r with Ok c' => getitem c' k | Raise e => Raise e end)
        (Ok c) path.

(** the dictionary bound to [self.spk_config] *)
Definition spk_config_of (emb_type speakers : cfg) : cfg :=
  CDict [("emb_type", emb_type); ("speakers", speakers)].

Definition is_log (ev : event) : bool :=
  match ev with EvLog _ _ _ => true | _ => false end.

(** the event is a submodule call through one of the attributes [names],
    made in gradient mode [g] *)
Definition calls_among (names : list string) (g : bool) (ev : event) : Prop :=
  match ev with
  | EvForward name _ _ _ g' => name ∈ names ∧ g' = g
  | _ => False
  end.

(** the metrics pushed by a step: the six loss names under a phase prefix *)
Definition metrics_named (prefix : string) (s0 s1 s2 s3 s4 s5 : Scalar)
    : list (string * Scalar) :=
  [(prefix +:+ "Total Loss", s0); (prefix +:+ "Mel Loss", s1);
   (prefix +:+ "Mel-Postnet Loss", s2); (prefix +:+ "Pitch Loss", s3);
   (prefix +:+ "Energy Loss", s4); (prefix +:+ "Duration Loss", s5)].

(** the attribute a call went through and the names of its keyword
    arguments *)
Definition forward_keywords (ev : event) : option (string * list string) :=
  match ev with
  | EvForward name _ _ kw _ => Some (name, kw.*1)
  | _ => None
  end.

(** the keyword names that the training path passes to each submodule *)
Definition training_keywords (name : string) : list string :=
  if String.eqb name "text_encoder" then ["lengths"] else [].

(** the keyword names that the synthesis paths pass to each submodule *)
Definition synthesis_keywords (name : string) : list string :=
  if String.eqb name "text_encoder" then ["lengths"]
  else if String.eqb name "model" then ["lang_args"; "average_spk_emb"]
  else [].

(** every call carries the keyword names [keywords] gives for its
    attribute, and a keyword [average_spk_emb] is always [True] *)
Definition keywords_as (keywords : string → list string) (g : bool)
    (ev : event) : Prop :=
  match ev with
  | EvForward name _ _ kw _ =>
      kw.*1 = keywords name ∧
      ∀ v, ("average_spk_emb", v) ∈ kw → v = VBool true
  | _ => True
  end.

(** an event of [inference]: a lookup in the language table or a call
    through one of the four attributes, made with gradient tracking off *)
Definition inference_event (g : bool) (ev : event) : Prop :=
  is_lookup ev = true ∨
  calls_among ["embedding_model"; "text_encoder"; "text_matching"; "model"]
              false ev.

End Baseline.

(** ** A small concrete backend

    Tensors are lists of integers, arrays are one-dimensional, and every
    submodule answers with a constant of the right shape.  It is used to run
    the definitions above on concrete inputs. *)
Module Toy.
Definition toy_forward (l : loc) (args : list (val (list Z)))
    (kw : list (string * val (list Z))) (grad : bool)
    (h : gmap loc (obj (list Z))) (x : N) : result (val (list Z)) * N :=
  match h !! l with
  | Some (OModule cls _ _) =>
      (match cls with
       | MultilingualEmbedding => Ok (VTensor [1])
       | TextEncoder => Ok (VTensor [2])
       | SoftMultiAttCodebook => Ok (VTuple [VTensor [3]; VTensor [4]])
       | FastSpeech2 => Ok (VTuple (replicate 10 (VTensor [5])))
       | FastSpeech2Loss => Ok (VTuple (replicate 6 (VTensor [6])))
       end, N.succ x)
  | _ => (Raise TypeError, x)
  end.

Definition backend : Backend := {|
  Tensor := list Z;
  NdArray := list Z;
  Scalar := Z;
  Ext := N;
  np_shape a := [Z.of_nat (length a)];
  from_numpy a := a;
  to_device t := t;
  t_long t := t;
  unsqueeze t _ := t;
  LongTensor l := l;
  tensor_max t := [foldr Z.max 0 t];
  tensor_rows t := Some ((λ x, [x]) <$> t);
  randn r c x := (replicate (Z.to_nat (r * c)) (Z.of_N x), N.succ x);
  item t := match t with [x] => Some x | _ => None end;
  LANG_NAME2ID := {[ "en" := 0; "zh" := 1 ]};
  build_all_speakers _ := Ok (CList [CStr "spk0"]);
  build_id2symbols _ := Ok (CDict [("en", CList [CStr "a"])]);
  forward := toy_forward;
|}.

Definition model_config (use : bool) : cfg :=
  CDict [("use_matching", CBool use); ("speaker_emb", CStr "table");
         ("transformer", CDict [("encoder_hidden", CInt 4)]);
         ("text_encoder", CDict []);
         ("matching", CDict [("codebook_size", CInt 2); ("dim", CInt 2);
                             ("nhead", CInt 1)])].

(** a system as its constructor leaves it: only the configurations are
    bound *)
Definition fresh_world (use : bool) : World (B:=backend) :=
  mkWorld (B:=backend)
    {[ "model_config" := ACfg (model_config use);
       "data_configs" := ACfg (CList []);
       "train_config" :=
         ACfg (CDict [("optimizer", CDict [("batch_size", CInt 8)])]) ]}
    ∅ [] true 0%N.

Definition configured (use : bool) : World (B:=backend) :=
  (build_configs (B:=backend) (fresh_world use)).2.

Definition built (use : bool) : World (B:=backend) :=
  (build_model (B:=backend) (configured use)).2.

Definition batch13 : list (val (list Z)) :=
  (λ i, VInt (Z.of_nat i)) <$> seq 0 13.

(** a reference slice of two frames and a text of three tokens *)
Definition mel : NdArray (Backend:=backend) := [1; 2].
Definition train_config : cfg :=
  CDict [("optimizer", CDict [("batch_size", CInt 8)])].

(** a system as its constructor leaves it, for given model and training
    configurations *)
Definition world_with (mc tc : cfg) : World (B:=backend) :=
  mkWorld (B:=backend)
    {[ "model_config" := ACfg mc;
       "data_configs" := ACfg (CList []);
       "train_config" := ACfg tc ]}
    ∅ [] true 0%N.

(** a model configuration that turns matching on and has no [matching]
    section *)
Definition model_config_no_section : cfg :=
  CDict [("use_matching", CBool true); ("speaker_emb", CStr "table");
         ("transformer", CDict [("encoder_hidden", CInt 4)]);
         ("text_encoder", CDict [])].

Definition configured_no_section : World (B:=backend) :=
  (build_configs (B:=backend)
     (world_with model_config_no_section train_config)).2.

(** the system left by the failed [build_model] on that configuration *)
Definition half_built : World (B:=backend) :=
  (build_model (B:=backend) configured_no_section).2.

(** the same backend with arrays that may have no axis: [None] is such an
    array, [Some l] a one-dimensional one *)
Definition scalar_backend : Backend := {|
  Tensor := list Z;
  NdArray := option (list Z);
  Scalar := Z;
  Ext := N;
  np_shape a := match a with Some l => [Z.of_nat (length l)] | None => [] end;
  from_numpy a := default [0] a;
  to_device t := t;
  t_long t := t;
  unsqueeze t _ := t;
  LongTensor l := l;
  tensor_max t := [foldr Z.max 0 t];
  tensor_rows t := Some ((λ x, [x]) <$> t);
  randn r c x := (replicate (Z.to_nat (r * c)) (Z.of_N x), N.succ x);
  item t := match t with [x] => Some x | _ => None end;
  LANG_NAME2ID := {[ "en" := 0; "zh" := 1 ]};
  build_all_speakers _ := Ok (CList [CStr "spk0"]);
  build_id2symbols _ := Ok (CDict [("en", CList [CStr "a"])]);
  forward := toy_forward;
|}.

Definition empty_world : World (B:=scalar_backend) :=
  mkWorld (B:=scalar_backend) ∅ ∅ [] true 0%N.

End Toy.

(** * Properties *)

Section Properties.
Context `{B : Backend}.

Abbreviation value := (val Tensor).
Abbreviation kwargs := (list (string * val Tensor)).

(** ** Running computations step by step *)

Lemma bind_ok {A C} (m : M A) (k : A → M C) w a w' :
  m w = (Ok a, w') → bind m k w = k a w'.
Proof. unfold bind. by intros ->. Qed.

Lemma bind_raise {A C} (m : M A) (k : A → M C) w e w' :
  m w = (Raise e, w') → bind m k w = (Raise e, w').
Proof. unfold bind. by intros ->. Qed.

Lemma bind_inv {A C} (m : M A) (k : A → M C) w c w' :
  bind m k w = (Ok c, w') →
  ∃ a w1, m w = (Ok a, w1) ∧ k a w1 = (Ok c, w').
Proof.
  unfold bind. destruct (m w) as [[a|e] w1]; [eauto | discriminate].
Qed.

Lemma getattr_ref_ok name l w :
  self w !! name = Some (ARef l) → getattr_ref name w = (Ok l, w).
Proof. unfold getattr_ref, getattr, bind. by intros ->. Qed.

Lemma getattr_cfg_ok name c w :
  self w !! name = Some (ACfg c) → getattr_cfg name w = (Ok c, w).
Proof. unfold getattr_cfg, getattr, bind. by intros ->. Qed.

Lemma getattr_ref_inv name l w w' :
  getattr_ref name w = (Ok l, w') → w' = w ∧ self w !! name = Some (ARef l).
Proof.
  unfold getattr_ref, getattr, bind, ret, raise.
  destruct (self w !! name) as [[c|l']|]; naive_solver.
Qed.

Lemma getattr_cfg_inv name c w w' :
  getattr_cfg name w = (Ok c, w') → w' = w ∧ self w !! name = Some (ACfg c).
Proof.
  unfold getattr_cfg, getattr, bind, ret, raise.
  destruct (self w !! name) as [[c'|l']|]; naive_solver.
Qed.

Lemma config_inv name path c w w' :
  config name path w = (Ok c, w') →
  w' = w ∧ ∃ c0, self w !! name = Some (ACfg c0) ∧
    foldl (λ r k, match r with Ok c' => getitem c' k | Raise e => Raise e end)
          (Ok c0) path = Ok c.
Proof.
  unfold config. intros (c0 & w1 & H0 & H1)%bind_inv.
  apply getattr_cfg_inv in H0 as [-> H0]. unfold lift in H1.
  inversion H1; subst. eauto.
Qed.

Lemma call_ok name f args kw w v x :
  forward f args kw (grad_enabled w) (heap w) (ext w) = (Ok v, x) →
  call name f args kw w =
    (Ok v,
     mkWorld (self w) (heap w)
       (trace w ++ [EvForward name f args kw (grad_enabled w)])
       (grad_enabled w) x).
Proof. unfold call. by intros ->. Qed.

Lemma lift_run {A} (r : result A) w : lift r w = (r, w).
Proof. done. Qed.

Ltac wsimpl :=
  cbn [self heap trace grad_enabled ext
       with_self with_heap with_event with_grad with_ext fst snd].

Tactic Notation "wsimpl_in" hyp(H) :=
  cbn [self heap trace grad_enabled ext
       with_self with_heap with_event with_grad with_ext fst snd] in H.

Ltac mstep :=
  erewrite bind_ok;
  [ | first [ eapply getattr_ref_ok; wsimpl; eassumption
            | eapply getattr_cfg_ok; wsimpl; eassumption
            | eapply call_ok; wsimpl; eassumption
            | rewrite lift_run; f_equal; first [eassumption | reflexivity] ] ];
  wsimpl.

(** ** The batch-start hooks *)

Lemma batch_assert_run (batch : list value) w :
  batch_assert batch w =
    (if decide (length batch = 13%nat) then Ok tt
     else Raise (AssertionError
                   ("data with 13 elements, but get " +:+ pretty (length batch))),
     w).
Proof.
  unfold batch_assert. case_decide as Hn.
  - by rewrite Hn.
  - by apply Nat.eqb_neq in Hn as ->.
Qed.

(** C1.  A batch whose length is not 13 makes both batch-start hooks raise
    an assertion error (with the message of the source) in an unchanged
    world, so no submodule was called; under the driver the step then does
    not run.  A batch of 13 elements passes both hooks, which return in an
    unchanged world. *)
Theorem batch_start_enforces_arity (batch : list value) (batch_idx d : Z)
    (w : World) :
  let failure : exn :=
    AssertionError ("data with 13 elements, but get " +:+ pretty (length batch)) in
  (length batch ≠ 13%nat →
     on_train_batch_start batch batch_idx d w = (Raise failure, w) ∧
     on_validation_batch_start batch batch_idx d w = (Raise failure, w) ∧
     run_train_batch batch batch_idx w = (Raise failure, w) ∧
     run_validation_batch batch batch_idx w = (Raise failure, w)) ∧
  (length batch = 13%nat →
     on_train_batch_start batch batch_idx d w = (Ok tt, w) ∧
     on_validation_batch_start batch batch_idx d w = (Ok tt, w) ∧
     run_train_batch batch batch_idx w = training_step batch batch_idx w ∧
     run_validation_batch batch batch_idx w = validation_step batch batch_idx w).
Proof.
  intros failure.
  unfold run_train_batch, run_validation_batch,
    on_train_batch_start, on_validation_batch_start.
  split; intros Hn.
  - assert (batch_assert batch w = (Raise failure, w)) as Hr.
    { rewrite batch_assert_run. by case_decide. }
    repeat split; try done; by erewrite bind_raise.
  - assert (batch_assert batch w = (Ok tt, w)) as Hr.
    { rewrite batch_assert_run. by case_decide. }
    repeat split; try done; by erewrite bind_ok.
Qed.

(** ** What a computation may emit *)

Section Emits.
Context (S : gmap string attr → Prop) (P : bool → event → Prop).

Lemma emits_silent {A} (m : M A) :
  (∀ w, (m w).2 = w) → emits S P m.
Proof.
  intros Hm w _. rewrite Hm. repeat split; try done.
  exists []. by rewrite app_nil_r.
Qed.

Lemma emits_ret {A} (a : A) : emits S P (ret a).
Proof. by apply emits_silent. Qed.

Lemma emits_raise {A} e : emits S P (raise (A:=A) e).
Proof. by apply emits_silent. Qed.

Lemma emits_lift {A} (r : result A) : emits S P (lift r).
Proof. by apply emits_silent. Qed.

Lemma emits_getattr name : emits S P (getattr name).
Proof.
  apply emits_silent. intros w. unfold getattr. by destruct (self w !! name).
Qed.

Lemma emits_bind {A C} (m : M A) (k : A → M C) :
  emits S P m → (∀ a, emits S P (k a)) → emits S P (bind m k).
Proof.
  intros Hm Hk w HS. destruct (Hm w HS) as (Hs & Hh & Hg & evs & Ht & HP).
  unfold bind. destruct (m w) as [[a|e] w1]; simpl in *.
  - destruct (Hk a w1) as (Hs' & Hh' & Hg' & evs' & Ht' & HP').
    { by rewrite Hs. }
    repeat split; [congruence..|].
    exists (evs ++ evs')%list. split.
    + by rewrite Ht', Ht, app_assoc.
    + apply Forall_app. split; [done|]. by rewrite <- Hg.
  - repeat split; eauto.
Qed.

Lemma emits_bind_ret {A C} (a : A) (k : A → M C) :
  emits S P (k a) → emits S P (bind (ret a) k).
Proof. intros Hk w HS. exact (Hk w HS). Qed.

Lemma emits_getattr_ref name : emits S P (getattr_ref name).
Proof.
  apply emits_bind; [apply emits_getattr|].
  intros [c|l]; [apply emits_raise | apply emits_ret].
Qed.

Lemma emits_getattr_cfg name : emits S P (getattr_cfg name).
Proof.
  apply emits_bind; [apply emits_getattr|].
  intros [c|l]; [apply emits_ret | apply emits_raise].
Qed.

Lemma emits_call name f args kw :
  (∀ g, P g (EvForward name f args kw g)) → emits S P (call name f args kw).
Proof.
  intros HP w _. unfold call.
  destruct (forward f args kw (grad_enabled w) (heap w) (ext w)) as [r x].
  repeat split; try done. eexists [_]. split; [done|].
  by apply Forall_singleton.
Qed.

Lemma emits_lang_name2id key :
  (∀ g, P g (EvLookup key)) → emits S P (lang_name2id key).
Proof.
  intros HP w _. unfold lang_name2id.
  destruct (LANG_NAME2ID !! key); (repeat split; try done);
    (eexists [_]; split; [done|]; by apply Forall_singleton).
Qed.

Lemma emits_log_dict metrics sync b :
  (∀ g, P g (EvLog metrics sync b)) → emits S P (log_dict metrics sync b).
Proof.
  intros HP w _. repeat split; try done.
  eexists [_]; split; [done|]; by apply Forall_singleton.
Qed.

Lemma emits_mapM {A C} (f : A → M C) (l : list A) :
  (∀ a, emits S P (f a)) → emits S P (mapM f l).
Proof.
  intros Hf. induction l as [|a l IH]; simpl.
  - apply emits_ret.
  - apply emits_bind; [done|]. intros c.
    apply emits_bind; [done|]. intros cs. apply emits_ret.
Qed.
End Emits.

Lemma emits_no_grad {A} S (P Q : bool → event → Prop) (body : M A) :
  emits S P body → (∀ g ev, P false ev → Q g ev) → emits S Q (no_grad body).
Proof.
  intros Hb HPQ w HS. unfold no_grad.
  destruct (Hb (with_grad false w) HS) as (Hs & Hh & Hg & evs & Ht & HP).
  destruct (body (with_grad false w)) as [r w1]; simpl in *.
  repeat split; try done. exists evs. split; [done|].
  eapply Forall_impl; [exact HP|]. intros ev. apply HPQ.
Qed.

Tactic Notation "ebind" "as" simple_intropattern(x) :=
  apply emits_bind; [ | intros x ].

Ltac emits_step :=
  first [ apply emits_ret | apply emits_raise | apply emits_lift
        | apply emits_getattr_ref | apply emits_getattr_cfg
        | apply emits_call; intros ?
        | apply emits_lang_name2id; intros ?
        | apply emits_log_dict; intros ?
        | apply emits_mapM; intros ? ].

(** ** The matching stage *)

Lemma match_texts_off (e : value) w use :
  self w !! "use_matching" = Some (ACfg use) → truthy use = false →
  match_texts e w = (Ok e, w).
Proof. intros Hu Hf. unfold match_texts. mstep. by rewrite Hf. Qed.

Lemma match_texts_run (e2 e3 : value) w use tm x3 :
  self w !! "use_matching" = Some (ACfg use) →
  matching_returns w (grad_enabled w) use tm e2 (ext w) e3 x3 →
  match_texts e2 w =
    (Ok e3,
     mkWorld (self w) (heap w)
       (trace w ++ matching_events (grad_enabled w) use tm e2)
       (grad_enabled w) x3).
Proof.
  intros Hu. unfold matching_returns, matching_events.
  destruct (truthy use) eqn:Ht.
  - intros (Htm & r & a & Hr & Hun).
    unfold match_texts. mstep. rewrite Ht. mstep. mstep. mstep. done.
  - intros [-> ->]. rewrite (match_texts_off _ _ _ Hu Ht), app_nil_r.
    by destruct w.
Qed.

Lemma emits_match_texts S (P : bool → event → Prop) (e : value) :
  (∀ g l, P g (EvForward "text_matching" l [e] [] g)) →
  emits S P (match_texts e).
Proof.
  intros HP. unfold match_texts. ebind as use; [emits_step|].
  destruct (truthy use); [|emits_step].
  ebind as f; [emits_step|]. ebind as r; [emits_step; apply HP|].
  ebind as [e' a]; emits_step.
Qed.

(** without matching the stage emits nothing at all *)
Lemma emits_match_texts_off (P : bool → event → Prop) (e : value) :
  emits matching_off P (match_texts e).
Proof.
  intros w (use & Hu & Hf). rewrite (match_texts_off _ _ _ Hu Hf).
  repeat split; try done. exists []. by rewrite app_nil_r.
Qed.

(** ** The training forward path *)

Lemma common_step_run (batch : list value) idx train w em te m lf use tm
    (b2 b3 b4 e1 e2 e3 out loss l0 l1 l2 l3 l4 l5 : value) x1 x2 x3 x4 x5 :
  let g := grad_enabled w in
  wired w em te m lf use →
  py_index batch 3 = Ok b3 → py_index batch 4 = Ok b4 →
  py_index batch 2 = Ok b2 →
  forward em [b3] [] g (heap w) (ext w) = (Ok e1, x1) →
  forward te [e1] [("lengths", b4)] g (heap w) x1 = (Ok e2, x2) →
  matching_returns w g use tm e2 x2 e3 x3 →
  forward m ([b2; e3] ++ py_slice batch (Some 4) None) [] g (heap w) x3
    = (Ok out, x4) →
  forward lf [VTuple (py_slice batch None (Some (-1))); out] [] g (heap w) x4
    = (Ok loss, x5) →
  subscript loss 0 = Ok l0 → subscript loss 1 = Ok l1 →
  subscript loss 2 = Ok l2 → subscript loss 3 = Ok l3 →
  subscript loss 4 = Ok l4 → subscript loss 5 = Ok l5 →
  common_step batch idx train w =
    (Ok (loss_dict_of l0 l1 l2 l3 l4 l5, out),
     mkWorld (self w) (heap w)
       (trace w ++
          [EvForward "embedding_model" em [b3] [] g;
           EvForward "text_encoder" te [e1] [("lengths", b4)] g] ++
          matching_events g use tm e2 ++
          [EvForward "model" m ([b2; e3] ++ py_slice batch (Some 4) None) [] g;
           EvForward "loss_func" lf
             [VTuple (py_slice batch None (Some (-1))); out] [] g])
       g x5).
Proof.
  intros g (Hem & Hte & Hm & Hlf & Hu) I3 I4 I2 H1 H2 H3 H4 H5 S0 S1 S2 S3 S4 S5.
  subst g. unfold common_step.
  do 6 mstep.
  erewrite bind_ok; [ | eapply match_texts_run; wsimpl; eassumption ].
  wsimpl. do 5 mstep. do 6 mstep.
  unfold ret. by rewrite <- !app_assoc.
Qed.

(** C7.  On a batch of 13 elements whose stages all return, [common_step]
    calls, in this order: the embedding on element 3; the text encoder on
    the embedded texts with lengths element 4; the matching module when
    matching is on; the acoustic model on element 2, the encoded texts and
    elements 4 to 12; the loss function on elements 0 to 11 and the model's
    output.  It returns the six entries of the loss together with that
    output. *)
Theorem common_step_data_flow
    (b0 b1 b2 b3 b4 b5 b6 b7 b8 b9 b10 b11 b12 : value) idx train w
    em te m lf use tm (e1 e2 e3 out loss l0 l1 l2 l3 l4 l5 : value)
    x1 x2 x3 x4 x5 :
  let batch := [b0; b1; b2; b3; b4; b5; b6; b7; b8; b9; b10; b11; b12] in
  let g := grad_enabled w in
  let conditioning := [b4; b5; b6; b7; b8; b9; b10; b11; b12] in
  let targets := VTuple [b0; b1; b2; b3; b4; b5; b6; b7; b8; b9; b10; b11] in
  wired w em te m lf use →
  forward em [b3] [] g (heap w) (ext w) = (Ok e1, x1) →
  forward te [e1] [("lengths", b4)] g (heap w) x1 = (Ok e2, x2) →
  matching_returns w g use tm e2 x2 e3 x3 →
  forward m ([b2; e3] ++ conditioning) [] g (heap w) x3 = (Ok out, x4) →
  forward lf [targets; out] [] g (heap w) x4 = (Ok loss, x5) →
  subscript loss 0 = Ok l0 → subscript loss 1 = Ok l1 →
  subscript loss 2 = Ok l2 → subscript loss 3 = Ok l3 →
  subscript loss 4 = Ok l4 → subscript loss 5 = Ok l5 →
  ∃ w',
    common_step batch idx train w =
      (Ok (loss_dict_of l0 l1 l2 l3 l4 l5, out), w') ∧
    trace w' =
      (trace w ++
         [EvForward "embedding_model" em [b3] [] g;
          EvForward "text_encoder" te [e1] [("lengths", b4)] g] ++
         matching_events g use tm e2 ++
         [EvForward "model" m ([b2; e3] ++ conditioning) [] g;
          EvForward "loss_func" lf [targets; out] [] g])%list.
Proof.
  intros batch g conditioning targets Hw H1 H2 H3 H4 H5 S0 S1 S2 S3 S4 S5.
  eexists. split.
  - eapply (common_step_run batch); try eassumption; reflexivity.
  - reflexivity.
Qed.

(** ** Events of the forward paths *)

(** [emits_run tac] walks through a computation; [tac] establishes the
    event predicate at each call site. *)
Ltac emits_run tac :=
  repeat first
    [ apply emits_ret | apply emits_raise | apply emits_lift
    | apply emits_getattr_ref | apply emits_getattr_cfg
    | apply emits_match_texts_off
    | apply emits_match_texts; intros ? ?; tac
    | apply emits_call; intros ?; tac
    | apply emits_lang_name2id; intros ?; tac
    | apply emits_log_dict; intros ?; tac
    | apply emits_mapM; intros ?
    | lazymatch goal with
      | |- emits _ _ (match ?x with _ => _ end) => destruct x
      end
    | apply emits_bind_ret
    | apply emits_bind; [ | intros ? ] ].

Lemma common_step_no_matching batch idx train :
  emits matching_off not_matching (common_step batch idx train).
Proof. unfold common_step. emits_run ltac:(done). Qed.

Lemma synth_step_no_matching batch idx :
  emits matching_off not_matching (synth_step batch idx).
Proof. unfold synth_step. emits_run ltac:(done). Qed.

Lemma inference_no_matching mel text symbol_id lang_id :
  emits matching_off not_matching (inference mel text symbol_id lang_id).
Proof.
  unfold inference. emits_run ltac:(done).
  eapply emits_no_grad with (P := not_matching); [|done].
  emits_run ltac:(done).
Qed.

(** ** Inference *)

Lemma py_index_0 {A} (a : A) (l : list A) : py_index (a :: l) 0 = Ok a.
Proof.
  unfold py_index. cbn [length Z.ltb Z.compare].
  replace (0 <=? 0) with true by done.
  replace (0 <? Z.of_nat (S (length l))) with true; [done|].
  symmetry. apply Z.ltb_lt. lia.
Qed.

Lemma py_index_nil {A} (i : Z) : py_index (@nil A) i = Raise IndexError.
Proof. unfold py_index. by destruct (_ && _). Qed.


Lemma lang_name2id_ok name i w :
  LANG_NAME2ID !! name = Some i →
  lang_name2id name w =
    (Ok i,
     mkWorld (self w) (heap w) (trace w ++ [EvLookup name])
       (grad_enabled w) (ext w)).
Proof. unfold lang_name2id. by intros ->. Qed.






Lemma call_inv name f args kw w r w' :
  call name f args kw w = (r, w') →
  trace w' = (trace w ++ [EvForward name f args kw (grad_enabled w)])%list.
Proof.
  unfold call.
  destruct (forward f args kw (grad_enabled w) (heap w) (ext w)) as [r0 x].
  by intros [= _ <-].
Qed.

Lemma no_grad_inv {A} (body : M A) w r w' :
  no_grad body w = (r, w') →
  ∃ w1, body (with_grad false w) = (r, w1) ∧ trace w' = trace w1.
Proof.
  unfold no_grad. destruct (body (with_grad false w)) as [r0 w1].
  intros [= <- <-]. eauto.
Qed.

(** a run of [inference] that returns ends with the call of the acoustic
    model *)
Lemma inference_ends_with_model mel text symbol_id lang_id w out w' :
  inference mel text symbol_id lang_id w = (Ok out, w') →
  ∃ lang_args l args g,
    language_args lang_id = Some lang_args ∧
    last (trace w') =
      Some (EvForward "model" l args
              [("lang_args", lang_args); ("average_spk_emb", VBool true)] g).
Proof.
  unfold inference.
  intros (n0 & w1 & _ & (lang_args & w2 & Hl & (n & w3 & _ & Hb)%bind_inv)%bind_inv)%bind_inv.
  exists lang_args.
  apply no_grad_inv in Hb as (w4 & Hb & ->).
  apply bind_inv in Hb as (f1 & w5 & _ & Hb).
  apply bind_inv in Hb as (e1 & w6 & _ & Hb).
  apply bind_inv in Hb as (f2 & w7 & _ & Hb).
  apply bind_inv in Hb as (e2 & w8 & _ & Hb).
  apply bind_inv in Hb as (e3 & w9 & _ & Hb).
  apply bind_inv in Hb as (f3 & w10 & _ & Hb).
  apply call_inv in Hb. rewrite Hb, last_snoc.
  do 3 eexists. split; [|done].
  destruct lang_id as [name|]; simpl.
  - apply bind_inv in Hl as (i & w11 & Hi & [= <- _]).
    unfold lang_name2id in Hi.
    destruct (LANG_NAME2ID !! name); [|done]. by injection Hi as <- _.
  - by injection Hl as <- _.
Qed.

(** C10.  Without a language identifier, [inference] performs no lookup
    in the language table, whatever else happens in the run, and every
    call of the acoustic model it makes carries [lang_args=None].  A run
    that returns did call the acoustic model, so it was called that way. *)
Theorem inference_without_language mel text symbol_id :
  emits (λ _, True) language_free (inference mel text symbol_id None) ∧
  ∀ w out w',
    inference mel text symbol_id None w = (Ok out, w') →
    ∃ l args g,
      last (trace w') =
        Some (EvForward "model" l args
                [("lang_args", VNone); ("average_spk_emb", VBool true)] g).
Proof.
  split.
  - unfold inference.
    emits_run ltac:(split; [done | intros ?; first [discriminate | reflexivity]]).
    eapply emits_no_grad with (P := language_free); [|done].
    emits_run ltac:(split; [done | intros ?; first [discriminate | reflexivity]]).
  - intros w out w' (la & l & args & g & [= <-] & Hlast)%inference_ends_with_model.
    eauto.
Qed.

(** ** Construction *)

Lemma torch_randn_inv size dim w t w' :
  torch_randn size dim w = (Ok t, w') → ∃ x, w' = with_ext x w.
Proof.
  unfold torch_randn. destruct size, dim; try done.
  destruct (_ && _); [|done].
  destruct (randn z z0 (ext w)) as [t' x]. intros [= _ <-]. eauto.
Qed.

Lemma fresh_heap_None (h : gmap loc (obj Tensor)) : h !! fresh (dom h) = None.
Proof. apply not_elem_of_dom, is_fresh. Qed.

(** [minv H] opens the first step of a run [H] that returned, and puts
    the world of the remaining run in constructor form.  A location that
    the step allocated is kept abstract, with the fact that it was free. *)
Ltac minv H :=
  let Hx := fresh "Hx" in
  apply bind_inv in H as (? & ? & Hx & H);
  lazymatch type of Hx with
  | config _ _ _ = _ => apply config_inv in Hx as [-> Hx]
  | getattr_cfg _ _ = _ => apply getattr_cfg_inv in Hx as [-> Hx]
  | getattr_ref _ _ = _ => apply getattr_ref_inv in Hx as [-> Hx]
  | setattr _ _ _ = _ =>
      unfold setattr, with_self in Hx; injection Hx as <- <-
  | alloc _ ?w0 = _ =>
      let l := fresh "l" in
      let Hl := fresh "Hl" in
      pose proof (fresh_heap_None (heap w0)) as Hl;
      unfold alloc, with_heap in Hx;
      set (l := fresh (dom (heap w0))) in Hx, Hl;
      clearbody l; cbn [heap] in Hl;
      injection Hx as <- <-
  | lift _ _ = _ => unfold lift in Hx; injection Hx as Hx <-
  | torch_randn _ _ _ = _ =>
      apply torch_randn_inv in Hx as [? ->]; unfold with_ext in H
  end;
  cbn [self heap trace grad_enabled ext] in H.

(** What [build_model] leaves behind when it returns: four module objects
    at fresh locations bound to the four attributes, and, with matching
    on, a parameter and a matching module whose [emb_banks] attribute is
    bound to that parameter. *)
Lemma build_model_inv w w' :
  build_model w = (Ok tt, w') →
  ∃ use em te m lf a_em a_te a_m a_lf h1 h2 h3 h4 s4,
    config "model_config" ["use_matching"] w = (Ok use, w) ∧
    h1 = <[em := OModule MultilingualEmbedding a_em ∅]> (heap w) ∧
    h2 = <[te := OModule TextEncoder a_te ∅]> h1 ∧
    h3 = <[m := OModule FastSpeech2 a_m ∅]> h2 ∧
    h4 = <[lf := OModule FastSpeech2Loss a_lf ∅]> h3 ∧
    heap w !! em = None ∧ h1 !! te = None ∧ h2 !! m = None ∧
    h3 !! lf = None ∧
    s4 = <["loss_func" := ARef lf]>
           (<["model" := ARef m]>
              (<["text_encoder" := ARef te]>
                 (<["embedding_model" := ARef em]>
                    (<["use_matching" := ACfg use]> (self w))))) ∧
    trace w' = trace w ∧ grad_enabled w' = grad_enabled w ∧
    if truthy use then
      ∃ p tm t a_tm,
        h4 !! p = None ∧ <[p := OParam t]> h4 !! tm = None ∧
        self w' =
          <["text_matching" := ARef tm]>
            (<["shared_emb_banks" := ARef p]> s4) ∧
        heap w' =
          <[tm := OModule SoftMultiAttCodebook a_tm {["emb_banks" := p]}]>
            (<[p := OParam t]> h4)
    else self w' = s4 ∧ heap w' = h4 ∧ ext w' = ext w.
Proof.
  unfold build_model, new_module, new_parameter. intros H.
  destruct w as [s0 h0 t0 g0 x0].
  minv H. rename x into use, Hx into Huse.
  do 16 (minv H; try clear Hx).
  minv H. cbn [self] in Hx.
  rewrite !lookup_insert_ne, lookup_insert_eq in Hx by done.
  injection Hx as <-.
  exists use, l, l0, l1, l2. do 4 eexists.
  do 5 eexists. split.
  { unfold config. destruct Huse as (c0 & Hc & Hf).
    erewrite bind_ok; [|by apply getattr_cfg_ok]. by rewrite lift_run, Hf. }
  do 4 (split; [reflexivity|]).
  do 4 (split; [eassumption|]).
  split; [reflexivity|].
  cbn [self heap trace grad_enabled ext].
  destruct (truthy use).
  - do 10 (minv H; try clear Hx).
    minv H. cbn [self] in Hx.
    rewrite lookup_insert_ne, lookup_insert_eq in Hx by done.
    injection Hx as <-.
    minv H. cbn [self] in Hx. rewrite lookup_insert_eq in Hx.
    injection Hx as <-.
    unfold setattr_obj, with_heap in H.
    cbn [self heap trace grad_enabled ext] in H.
    rewrite lookup_insert_eq in H. injection H as <-.
    cbn [self heap trace grad_enabled ext].
    split; [reflexivity|]. split; [reflexivity|].
    exists l3, l4. do 2 eexists.
    do 2 (split; [eassumption|]). split; [reflexivity|].
    rewrite insert_insert_eq, insert_empty. reflexivity.
  - injection H as <-. cbn [self heap trace grad_enabled ext].
    repeat split; reflexivity.
Qed.

(** C4.  When the configured [use_matching] is false and [build_model]
    returns, it has bound neither [text_matching] nor [shared_emb_banks],
    and every object it added to the store is a plain module of a class
    other than the codebook class (so no parameter either).  From then on
    the matching stage of the forward paths hands its input through,
    returning in an unchanged world although [text_matching] is unbound,
    and no run of [common_step], [synth_step] or [inference], returning or
    raising, calls the matching module. *)
Theorem matching_disabled w w' use :
  config "model_config" ["use_matching"] w = (Ok use, w) →
  truthy use = false →
  build_model w = (Ok tt, w') →
  self w' !! "text_matching" = self w !! "text_matching" ∧
  self w' !! "shared_emb_banks" = self w !! "shared_emb_banks" ∧
  (∀ l o, heap w' !! l = Some o →
     heap w !! l = Some o ∨
     ∃ cls args, o = OModule cls args ∅ ∧ cls ≠ SoftMultiAttCodebook) ∧
  matching_off (self w') ∧
  (∀ e w1, self w1 = self w' → match_texts e w1 = (Ok e, w1)) ∧
  (∀ batch idx train,
     emits matching_off not_matching (common_step batch idx train)) ∧
  (∀ batch idx, emits matching_off not_matching (synth_step batch idx)) ∧
  (∀ mel text symbol_id lang_id,
     emits matching_off not_matching (inference mel text symbol_id lang_id)).
Proof.
  intros Hcfg Hoff Hbuild.
  destruct (build_model_inv _ _ Hbuild) as
    (use' & em & te & m & lf & a_em & a_te & a_m & a_lf & h1 & h2 & h3 & h4
     & s4 & Hcfg' & -> & -> & -> & -> & _ & _ & _ & _ & -> & _ & _ & Hrest).
  rewrite Hcfg in Hcfg'. injection Hcfg' as <-.
  rewrite Hoff in Hrest. destruct Hrest as (Hs & Hh & _).
  assert (self w' !! "use_matching" = Some (ACfg use)) as Huse.
  { rewrite Hs. by rewrite !lookup_insert_ne, lookup_insert_eq by done. }
  split; [|split; [|split; [|split; [|split; [|split; [|split]]]]]].
  - rewrite Hs. by rewrite !lookup_insert_ne by done.
  - rewrite Hs. by rewrite !lookup_insert_ne by done.
  - intros l o. rewrite Hh.
    rewrite !lookup_insert_Some.
    intros [[_ <-]|[_ [[_ <-]|[_ [[_ <-]|[_ [[_ <-]|[_ ?]]]]]]]];
      first [ by left | right; by do 2 eexists ].
  - by exists use.
  - intros e w1 Hw1. apply match_texts_off with use; [|done]. by rewrite Hw1.
  - apply common_step_no_matching.
  - apply synth_step_no_matching.
  - apply inference_no_matching.
Qed.

(** ** The optimized modules *)

Lemma build_optimized_model_run w te m em use :
  self w !! "text_encoder" = Some (ARef te) →
  self w !! "model" = Some (ARef m) →
  self w !! "embedding_model" = Some (ARef em) →
  self w !! "use_matching" = Some (ACfg use) →
  build_optimized_model w =
    if truthy use then
      match self w !! "text_matching" with
      | Some (ARef tm) => (Ok [te; m; em; tm], w)
      | Some (ACfg _) => (Raise TypeError, w)
      | None => (Raise (AttributeError "text_matching"), w)
      end
    else (Ok [te; m; em], w).
Proof.
  intros Hte Hm Hem Hu. unfold build_optimized_model. do 4 mstep.
  destruct (truthy use); [|done].
  unfold bind, getattr_ref, getattr, bind.
  by destruct (self w !! "text_matching") as [[c|tm]|].
Qed.

(** C6.  After [build_model], [build_optimized_model] returns the text
    encoder, the acoustic model and the embedding module, in this order,
    followed by the matching module exactly when the configured
    [use_matching] is true; the loss function is not in the list. *)
Theorem optimized_modules w w' :
  build_model w = (Ok tt, w') →
  ∃ use em te m lf mods,
    config "model_config" ["use_matching"] w = (Ok use, w) ∧
    wired w' em te m lf use ∧
    build_optimized_model w' = (Ok mods, w') ∧
    (lf ∉ mods) ∧
    (if truthy use then
       ∃ tm, self w' !! "text_matching" = Some (ARef tm) ∧
             mods = [te; m; em; tm]
     else mods = [te; m; em]).
Proof.
  intros Hbuild.
  destruct (build_model_inv _ _ Hbuild) as
    (use & em & te & m & lf & a_em & a_te & a_m & a_lf & h1 & h2 & h3 & h4
     & s4 & Hcfg & -> & -> & -> & -> & Hem & Hte & Hm & Hlf & -> & _ & _
     & Hrest).
  apply lookup_insert_None in Hte as [Hte Hte_em].
  apply lookup_insert_None in Hm as [Hm Hm_te].
  apply lookup_insert_None in Hm as [Hm Hm_em].
  apply lookup_insert_None in Hlf as [Hlf Hlf_m].
  apply lookup_insert_None in Hlf as [Hlf Hlf_te].
  apply lookup_insert_None in Hlf as [Hlf Hlf_em].
  exists use, em, te, m, lf.
  destruct (truthy use) eqn:Htr.
  - destruct Hrest as (p & tm & t & a_tm & Hp & Htm & Hs & Hh).
    apply lookup_insert_None in Htm as [Htm Htm_p].
    apply lookup_insert_None in Htm as [Htm Htm_lf].
    assert (wired w' em te m lf use) as Hw.
    { unfold wired. rewrite Hs.
      repeat split; by rewrite !lookup_insert_ne, lookup_insert_eq by done. }
    assert (self w' !! "text_matching" = Some (ARef tm)) as Htmw.
    { rewrite Hs. by rewrite lookup_insert_eq. }
    exists [te; m; em; tm]. split; [done|]. split; [done|].
    destruct Hw as (Hw1 & Hw2 & Hw3 & Hw4 & Hw5).
    split; [|split].
    + rewrite (build_optimized_model_run w' te m em use) by done.
      by rewrite Htr, Htmw.
    + rewrite !not_elem_of_cons. repeat split; try done.
      apply not_elem_of_nil.
    + by exists tm.
  - destruct Hrest as (Hs & Hh & _).
    assert (wired w' em te m lf use) as Hw.
    { unfold wired. rewrite Hs.
      repeat split;
        first [ by rewrite lookup_insert_eq
              | by rewrite !lookup_insert_ne, lookup_insert_eq by done ]. }
    exists [te; m; em]. split; [done|]. split; [done|].
    destruct Hw as (Hw1 & Hw2 & Hw3 & Hw4 & Hw5).
    split; [|split; [|done]].
    + rewrite (build_optimized_model_run w' te m em use) by done.
      by rewrite Htr.
    + rewrite !not_elem_of_cons. repeat split; try done.
      apply not_elem_of_nil.
Qed.

(** ** The shared embedding bank *)

Lemma aliased_update p t w path :
  aliased p w → path w = Some p →
  aliased p (update_via path t w) ∧
  param_data (update_via path t w) p = Some t.
Proof.
  intros (Hs & Hm & [t0 Ht0]) Hpath.
  unfold update_via. rewrite Hpath.
  unfold aliased, system_banks, matching_banks, param_data, param_update
    in *. cbn [self heap with_heap] in *.
  destruct (heap w !! p) as [[d|cls args attrs]|] eqn:Hp; try done.
  rewrite lookup_alter_eq, Hp. cbn.
  split; [|done]. split; [done|]. split; [|by eexists].
  destruct (self w !! "text_matching") as [[c|tm]|]; try done.
  destruct (decide (tm = p)) as [->|Hne].
  - by rewrite Hp in Hm.
  - by rewrite lookup_alter_ne.
Qed.

Lemma aliased_updates p updates w :
  aliased p w → aliased p (apply_updates updates w).
Proof.
  unfold apply_updates. revert w.
  induction updates as [|[via t] updates IH]; intros w Hw; [done|].
  cbn [foldl]. apply IH. destruct Hw as (Hs & Hm & Hd).
  destruct via; cbn [fst snd]; by apply aliased_update.
Qed.

(** C9.  After [build_model] with matching on, [self.shared_emb_banks]
    and [self.text_matching.emb_banks] are one parameter object.  Whatever
    sequence of in-place updates is then made through either path, both
    paths read the same tensor, and an update made through one path is
    what the other path reads next. *)
Theorem emb_banks_aliased w w' use :
  config "model_config" ["use_matching"] w = (Ok use, w) →
  truthy use = true →
  build_model w = (Ok tt, w') →
  ∃ p,
    system_banks w' = Some p ∧ matching_banks w' = Some p ∧
    is_Some (param_data w' p) ∧
    ∀ updates t,
      let w1 := apply_updates updates w' in
      system_banks w1 = Some p ∧ matching_banks w1 = Some p ∧
      read_via system_banks w1 = read_via matching_banks w1 ∧
      read_via matching_banks (update_via system_banks t w1) = Some t ∧
      read_via system_banks (update_via matching_banks t w1) = Some t.
Proof.
  intros Hcfg Hon Hbuild.
  destruct (build_model_inv _ _ Hbuild) as
    (use' & em & te & m & lf & a_em & a_te & a_m & a_lf & h1 & h2 & h3 & h4
     & s4 & Hcfg' & _ & _ & _ & _ & _ & _ & _ & _ & _ & _ & _ & Hrest).
  rewrite Hcfg in Hcfg'. injection Hcfg' as <-.
  rewrite Hon in Hrest.
  destruct Hrest as (p & tm & t0 & a_tm & Hp & Htm & Hs & Hh).
  apply lookup_insert_None in Htm as [Htm Htm_p].
  assert (aliased p w') as Hal.
  { unfold aliased, system_banks, matching_banks, param_data.
    rewrite Hs, Hh.
    rewrite lookup_insert_eq.
    rewrite (lookup_insert_ne _ "text_matching" "shared_emb_banks") by done.
    rewrite !lookup_insert_eq.
    rewrite lookup_insert_ne, lookup_insert_eq by done.
    rewrite lookup_singleton_eq. repeat split; by eexists. }
  exists p. destruct Hal as (Hsb & Hmb & Hd).
  do 3 (split; [done|]).
  intros updates t w1.
  assert (aliased p w1) as (Hs1 & Hm1 & Hd1).
  { by apply aliased_updates. }
  split; [done|]. split; [done|]. split; [|split].
  - unfold read_via. by rewrite Hs1, Hm1.
  - destruct (aliased_update p t w1 system_banks) as [(_ & Hm2 & _) Hr];
      [done..|].
    unfold read_via. by rewrite Hm2.
  - destruct (aliased_update p t w1 matching_banks) as [(Hs2 & _ & _) Hr];
      [done..|].
    unfold read_via. by rewrite Hs2.
Qed.

(** ** The two step functions *)

Lemma common_step_keys batch idx train w d out w' :
  common_step batch idx train w = (Ok (d, out), w') → d.*1 = loss_names.
Proof.
  unfold common_step. intros H.
  do 18 (apply bind_inv in H as (? & ? & _ & H)).
  unfold ret in H. by injection H as <- _ _.
Qed.

Lemma training_step_inv batch idx w r w' :
  training_step batch idx w = (Ok r, w') →
  ∃ w1, common_step batch idx true w = (Ok (t_losses r, t_output r), w1) ∧
        dict_get (t_losses r) "Total Loss" = Ok (t_loss r).
Proof.
  unfold training_step. intros H.
  apply bind_inv in H as ([d out] & w1 & Hc & H).
  apply bind_inv in H as (? & ? & _ & H).
  apply bind_inv in H as (? & ? & _ & H).
  apply bind_inv in H as (? & ? & _ & H).
  apply bind_inv in H as (total & ? & Ht & H).
  injection H as <- _. injection Ht as Ht _. eauto.
Qed.

Lemma validation_step_inv batch idx w r w' :
  validation_step batch idx w = (Ok r, w') →
  ∃ w1, common_step batch idx false w = (Ok (v_losses r, v_output r), w1) ∧
        dict_get (v_losses r) "Total Loss" = Ok (v_loss r).
Proof.
  unfold validation_step. intros H.
  apply bind_inv in H as ([d out] & w1 & Hc & H).
  apply bind_inv in H as (? & ? & _ & H).
  apply bind_inv in H as (? & ? & _ & H).
  apply bind_inv in H as (? & ? & _ & H).
  apply bind_inv in H as (? & ? & _ & H).
  apply bind_inv in H as (total & ? & Ht & H).
  injection H as <- _. injection Ht as Ht _. eauto.
Qed.

(** C3.  Started on the same batch in the same world (parameters, random
    state, mode), [training_step] and [validation_step] compute their loss
    dictionary by the same run of [common_step], whose [train] flag has no
    influence: when both return, their loss dictionaries, total losses and
    outputs are equal, and when [common_step] raises, both raise the same
    exception in the same world. *)
Theorem steps_share_loss_dictionary batch idx w :
  common_step batch idx true w = common_step batch idx false w ∧
  (∀ rt wt rv wv,
     training_step batch idx w = (Ok rt, wt) →
     validation_step batch idx w = (Ok rv, wv) →
     t_losses rt = v_losses rv ∧ t_loss rt = v_loss rv ∧
     t_output rt = v_output rv ∧
     ∃ w1, common_step batch idx true w
             = (Ok (t_losses rt, t_output rt), w1)) ∧
  (∀ e w1,
     common_step batch idx true w = (Raise e, w1) →
     training_step batch idx w = (Raise e, w1) ∧
     validation_step batch idx w = (Raise e, w1)).
Proof.
  split; [reflexivity|]. split.
  - intros rt wt rv wv (w1 & Ht & Htot)%training_step_inv
      (w2 & Hv & Hvtot)%validation_step_inv.
    change (common_step batch idx false w)
      with (common_step batch idx true w) in Hv.
    rewrite Ht in Hv. injection Hv as Hl Ho _.
    rewrite <- Hl in Hvtot. rewrite Htot in Hvtot. injection Hvtot as Hloss.
    repeat split; eauto.
  - intros e w1 He. split.
    + unfold training_step. by erewrite bind_raise.
    + unfold validation_step.
      change (common_step batch idx false w)
        with (common_step batch idx true w).
      by erewrite bind_raise.
Qed.
(** * Further properties *)

(** ** Configuration lookups *)

Lemma config_run name path w c0 :
  self w !! name = Some (ACfg c0) →
  config name path w = (lookup_path c0 path, w).
Proof.
  intros Hn. unfold config. erewrite bind_ok; [|by apply getattr_cfg_ok].
  reflexivity.
Qed.

Lemma config_ok name path w c0 c :
  self w !! name = Some (ACfg c0) → lookup_path c0 path = Ok c →
  config name path w = (Ok c, w).
Proof. intros Hn Hp. by rewrite (config_run _ _ _ _ Hn), Hp. Qed.

Lemma config_fail name path w c0 e :
  self w !! name = Some (ACfg c0) → lookup_path c0 path = Raise e →
  config name path w = (Raise e, w).
Proof. intros Hn Hp. by rewrite (config_run _ _ _ _ Hn), Hp. Qed.

Lemma lookup_path_missing d k rest :
  assoc d k = None → lookup_path (CDict d) (k :: rest) = Raise (KeyError k).
Proof.
  intros Hk. unfold lookup_path. cbn [foldl getitem]. rewrite Hk.
  by induction rest.
Qed.

Lemma lookup_path_cons c k c1 rest :
  getitem c k = Ok c1 → lookup_path c (k :: rest) = lookup_path c1 rest.
Proof. intros Hk. unfold lookup_path. cbn [foldl]. by rewrite Hk. Qed.

(** [self_lookup] settles a lookup in the attributes of a world built by
    [setattr] and allocations. *)
Ltac self_lookup :=
  cbn [self heap with_self with_heap with_ext with_event];
  repeat first [ rewrite lookup_insert_eq
               | rewrite lookup_insert_ne by done ];
  first [ eassumption | reflexivity ].

(** [bstep] runs the first step of a construction. *)
Ltac bstep :=
  lazymatch goal with
  | |- context [bind (config _ _) _ _] =>
      erewrite (bind_ok (config _ _));
      [ | eapply config_ok; [self_lookup | eassumption] ]
  | |- context [bind (getattr_cfg _) _ _] =>
      erewrite (bind_ok (getattr_cfg _)); [ | eapply getattr_cfg_ok; self_lookup ]
  | |- context [bind (getattr_ref _) _ _] =>
      erewrite (bind_ok (getattr_ref _)); [ | eapply getattr_ref_ok; self_lookup ]
  | |- context [bind (lift _) _ _] =>
      erewrite (bind_ok (lift _));
      [ | rewrite lift_run; f_equal; first [eassumption | reflexivity] ]
  | |- context [bind (setattr _ _) _ _] =>
      erewrite (bind_ok (setattr _ _)); [ | reflexivity ]
  end.

(** ** build_configs *)

(** X1.  When the three configurations hold the entries that
    [build_configs] reads and the speaker enumeration returns, it returns
    having bound [spk_config] to the dictionary of the embedding type and
    the speakers, and [bs] to the batch size of the optimizer; nothing else
    in the world changes. *)
Theorem build_configs_returns w mc dc tc emb speakers b :
  self w !! "model_config" = Some (ACfg mc) →
  self w !! "data_configs" = Some (ACfg dc) →
  self w !! "train_config" = Some (ACfg tc) →
  lookup_path mc ["speaker_emb"] = Ok emb →
  build_all_speakers dc = Ok speakers →
  lookup_path tc ["optimizer"; "batch_size"] = Ok b →
  build_configs w =
    (Ok tt,
     with_self
       (λ s, <["bs" := ACfg b]>
               (<["spk_config" := ACfg (spk_config_of emb speakers)]> s))
       w).
Proof.
  intros Hmc Hdc Htc Hemb Hspk Hb. unfold build_configs.
  do 5 bstep. reflexivity.
Qed.

(** X2.  Without [speaker_emb] in the model configuration,
    [build_configs] raises the [KeyError] of that entry before anything is
    bound. *)
Theorem build_configs_without_speaker_emb w d :
  self w !! "model_config" = Some (ACfg (CDict d)) →
  assoc d "speaker_emb" = None →
  build_configs w = (Raise (KeyError "speaker_emb"), w).
Proof.
  intros Hmc Hk. unfold build_configs.
  erewrite bind_raise; [done|].
  eapply config_fail; [done|]. by apply lookup_path_missing.
Qed.

(** X3.  Without [optimizer] in the training configuration,
    [build_configs] raises the [KeyError] of that entry after [spk_config]
    has been bound: the system keeps the speaker configuration, and [bs]
    stays as it was. *)
Theorem build_configs_without_optimizer w d mc dc emb speakers :
  self w !! "model_config" = Some (ACfg mc) →
  self w !! "data_configs" = Some (ACfg dc) →
  self w !! "train_config" = Some (ACfg (CDict d)) →
  lookup_path mc ["speaker_emb"] = Ok emb →
  build_all_speakers dc = Ok speakers →
  assoc d "optimizer" = None →
  build_configs w =
    (Raise (KeyError "optimizer"),
     with_self (insert "spk_config" (ACfg (spk_config_of emb speakers))) w).
Proof.
  intros Hmc Hdc Htc Hemb Hspk Hk. unfold build_configs.
  do 4 bstep.
  erewrite bind_raise; [done|].
  eapply config_fail; [self_lookup|]. by apply lookup_path_missing.
Qed.

(** ** build_model *)


(** [astep] runs an allocation and keeps the new location abstract. *)
Ltac astep :=
  lazymatch goal with
  | |- context [bind (new_module _ _) _ _] =>
      erewrite (bind_ok (new_module _ _)); [ | reflexivity ]
  | |- context [bind (new_parameter _) _ _] =>
      erewrite (bind_ok (new_parameter _)); [ | reflexivity ]
  end;
  cbv beta;
  lazymatch goal with
  | |- context [fresh (dom ?h)] =>
      let l := fresh "l" in set (l := fresh (dom h)); clearbody l
  end.

(** the first four constructions of [build_model] *)
Ltac build_four := bstep; bstep; bstep; bstep; bstep; astep; bstep; bstep;
  astep; bstep; bstep; bstep; astep; bstep; bstep; astep; bstep.


(** X5.  [build_model] reads [self.spk_config], which only [build_configs]
    binds.  Called without it (and with the entries it reads before that
    present), it raises [AttributeError] after the embedding module and the
    text encoder have been constructed and bound; the acoustic model, the
    loss function and the matching module have not. *)
Theorem build_model_before_build_configs w mc dc use ed ids tc :
  self w !! "model_config" = Some (ACfg mc) →
  self w !! "data_configs" = Some (ACfg dc) →
  self w !! "spk_config" = None →
  lookup_path mc ["use_matching"] = Ok use →
  lookup_path mc ["transformer"; "encoder_hidden"] = Ok ed →
  build_id2symbols dc = Ok ids →
  lookup_path mc ["text_encoder"] = Ok tc →
  ∃ em te,
    heap w !! em = None ∧ heap w !! te = None ∧ em ≠ te ∧
    build_model w =
      (Raise (AttributeError "spk_config"),
       mkWorld
         (<["text_encoder" := ARef te]>
            (<["embedding_model" := ARef em]>
               (<["use_matching" := ACfg use]> (self w))))
         (<[te := OModule TextEncoder [("config", tc)] ∅]>
            (<[em := OModule MultilingualEmbedding
                       [("id2symbols", ids); ("dim", ed)] ∅]> (heap w)))
         (trace w) (grad_enabled w) (ext w)).
Proof.
  intros Hmc Hdc Hspk Huse Hed Hids Htc.
  destruct w as [s0 h0 t0 g0 x0]. cbn [self heap trace grad_enabled ext] in *.
  set (oem := OModule MultilingualEmbedding [("id2symbols", ids); ("dim", ed)] ∅).
  pose proof (fresh_heap_None h0) as Hem.
  pose proof (fresh_heap_None (<[fresh (dom h0) := oem]> h0)) as Hte.
  apply lookup_insert_None in Hte as [Hte Hne].
  exists (fresh (dom h0)), (fresh (dom (<[fresh (dom h0) := oem]> h0))).
  do 3 (split; [done|]).
  unfold build_model.
  do 5 bstep.
  erewrite (bind_ok (new_module _ _)); [|reflexivity].
  do 2 bstep.
  erewrite (bind_ok (new_module _ _)); [|reflexivity].
  do 2 bstep.
  erewrite bind_raise; [reflexivity|].
  unfold getattr_cfg, getattr.
  erewrite bind_raise; [reflexivity|].
  cbn [self heap with_self with_heap].
  rewrite !lookup_insert_ne by done. by rewrite Hspk.
Qed.

(** X6.  With [use_matching] absent from the model configuration,
    [build_model] raises its [KeyError] and has done nothing. *)
Theorem build_model_without_use_matching w d :
  self w !! "model_config" = Some (ACfg (CDict d)) →
  assoc d "use_matching" = None →
  build_model w = (Raise (KeyError "use_matching"), w).
Proof.
  intros Hmc Hk. unfold build_model.
  erewrite bind_raise; [done|].
  eapply config_fail; [done|]. by apply lookup_path_missing.
Qed.

(** X7.  With matching on, a failing lookup in the [matching] section (the
    section or the codebook size is missing) makes [build_model] raise that
    error after the four submodules have been constructed and bound:
    the system is left half built, with [use_matching] true and neither
    [shared_emb_banks] nor [text_matching] bound by this call. *)
Theorem build_model_matching_section_missing w mc dc spk use ed ids tc e :
  self w !! "model_config" = Some (ACfg mc) →
  self w !! "data_configs" = Some (ACfg dc) →
  self w !! "spk_config" = Some (ACfg spk) →
  lookup_path mc ["use_matching"] = Ok use →
  lookup_path mc ["transformer"; "encoder_hidden"] = Ok ed →
  build_id2symbols dc = Ok ids →
  lookup_path mc ["text_encoder"] = Ok tc →
  truthy use = true →
  lookup_path mc ["matching"; "codebook_size"] = Raise e →
  (build_model w).1 = Raise e ∧
  (∃ em te m lf, wired (build_model w).2 em te m lf use) ∧
  self (build_model w).2 !! "shared_emb_banks" = self w !! "shared_emb_banks" ∧
  self (build_model w).2 !! "text_matching" = self w !! "text_matching".
Proof.
  intros Hmc Hdc Hspk Huse Hed Hids Htc Hon He. unfold build_model.
  build_four. bstep. rewrite Hon.
  erewrite bind_raise; [|eapply config_fail; [self_lookup|eassumption]].
  cbn [fst snd]. split; [done|]. split.
  - exists l, l0, l1, l2. unfold wired. repeat split; self_lookup.
  - split; self_lookup.
Qed.

Lemma insert_keeps (h : gmap loc (obj Tensor)) k v l o :
  h !! k = None → h !! l = Some o → <[k := v]> h !! l = Some o.
Proof. intros Hk Hl. rewrite lookup_insert_ne; [done|]. congruence. Qed.

(** X8.  A returning [build_model] rebinds at most the seven attributes
    [use_matching], [embedding_model], [text_encoder], [model],
    [loss_func], [shared_emb_banks] and [text_matching]: every other
    attribute, every object that was in the store, the trace and the
    gradient mode are as before. *)
Theorem build_model_frame w w' :
  build_model w = (Ok tt, w') →
  (∀ name,
     name ∉ ["use_matching"; "embedding_model"; "text_encoder"; "model";
             "loss_func"; "shared_emb_banks"; "text_matching"] →
     self w' !! name = self w !! name) ∧
  (∀ l o, heap w !! l = Some o → heap w' !! l = Some o) ∧
  trace w' = trace w ∧ grad_enabled w' = grad_enabled w.
Proof.
  intros Hbuild.
  destruct (build_model_inv _ _ Hbuild) as
    (use & em & te & m & lf & a_em & a_te & a_m & a_lf & h1 & h2 & h3 & h4
     & s4 & _ & -> & -> & -> & -> & Hem & Hte & Hm & Hlf & -> & Htr & Hg
     & Hrest).
  split; [|split; [|done]].
  - intros name Hname.
    rewrite !not_elem_of_cons in Hname.
    destruct Hname as (N1 & N2 & N3 & N4 & N5 & N6 & N7 & _).
    destruct (truthy use).
    + destruct Hrest as (p & tm & t & a_tm & _ & _ & -> & _).
      by rewrite !lookup_insert_ne by done.
    + destruct Hrest as (-> & _ & _).
      by rewrite !lookup_insert_ne by done.
  - intros l o Hl.
    assert (<[lf:=OModule FastSpeech2Loss a_lf ∅]>
              (<[m:=OModule FastSpeech2 a_m ∅]>
                 (<[te:=OModule TextEncoder a_te ∅]>
                    (<[em:=OModule MultilingualEmbedding a_em ∅]> (heap w))))
            !! l = Some o) as H4.
    { do 4 (apply insert_keeps; [done|]). done. }
    destruct (truthy use).
    + destruct Hrest as (p & tm & t & a_tm & Hp & Htm & _ & ->).
      do 2 (apply insert_keeps; [done|]). done.
    + destruct Hrest as (_ & -> & _). done.
Qed.

Lemma torch_randn_inv_full size dim w t w' :
  torch_randn size dim w = (Ok t, w') →
  ∃ r c, size = CInt r ∧ dim = CInt c ∧
         t = (randn r c (ext w)).1 ∧ w' = with_ext (randn r c (ext w)).2 w.
Proof.
  unfold torch_randn. destruct size, dim; try done.
  destruct (_ && _); [|done].
  destruct (randn z z0 (ext w)) as [t' x] eqn:Hr. intros [= <- <-].
  exists z, z0. by rewrite Hr.
Qed.

(** [to_path H] reads a chain of subscripts in [H] as a [lookup_path]. *)
Ltac to_path H :=
  lazymatch type of H with
  | foldl _ (Ok ?c) ?p = ?r => change (lookup_path c p = r) in H
  end.

(** X9.  After [build_model] with matching on, the shape of the shared
    embedding bank agrees with the matching module: the module was
    constructed with [codebook_size], [embed_dim] and [num_heads] taken from
    the [matching] section, both sizes are integers, and the bank is the
    tensor that [torch.randn] drew with exactly these two sizes. *)
Theorem bank_shape_matches_module w w' mc use :
  self w !! "model_config" = Some (ACfg mc) →
  lookup_path mc ["use_matching"] = Ok use →
  truthy use = true →
  build_model w = (Ok tt, w') →
  ∃ r c nhead p tm x,
    lookup_path mc ["matching"; "codebook_size"] = Ok (CInt r) ∧
    lookup_path mc ["matching"; "dim"] = Ok (CInt c) ∧
    lookup_path mc ["matching"; "nhead"] = Ok nhead ∧
    self w' !! "text_matching" = Some (ARef tm) ∧
    heap w' !! tm =
      Some (OModule SoftMultiAttCodebook
              [("codebook_size", CInt r); ("embed_dim", CInt c);
               ("num_heads", nhead)]
              {["emb_banks" := p]}) ∧
    param_data w' p = Some (randn r c x).1.
Proof.
  intros Hmc Huse Hon. unfold build_model, new_module, new_parameter.
  intros H. destruct w as [s0 h0 t0 g0 x0].
  cbn [self] in Hmc.
  minv H. destruct Hx as (c0 & Hc0 & Hu). cbn [self] in Hc0.
  rewrite Hmc in Hc0. injection Hc0 as <-.
  to_path Hu.
  rewrite Huse in Hu. injection Hu as <-.
  do 16 (minv H; try clear Hx).
  minv H. cbn [self] in Hx.
  rewrite !lookup_insert_ne, lookup_insert_eq in Hx by done.
  injection Hx as <-. rewrite Hon in H.
  minv H. destruct Hx as (c0 & Hc0 & Hsize). cbn [self] in Hc0.
  rewrite !lookup_insert_ne in Hc0 by done.
  rewrite Hmc in Hc0. injection Hc0 as <-.
  minv H. destruct Hx as (c0 & Hc0 & Hdim). cbn [self] in Hc0.
  rewrite !lookup_insert_ne in Hc0 by done.
  rewrite Hmc in Hc0. injection Hc0 as <-.
  apply bind_inv in H as (t & W & Hx & H).
  apply torch_randn_inv_full in Hx as (r & c & -> & -> & -> & ->).
  unfold with_ext in H. cbn [self heap trace grad_enabled ext] in H.
  do 2 (minv H; try clear Hx).
  minv H. destruct Hx as (c0 & Hc0 & Hsize'). cbn [self] in Hc0.
  rewrite !lookup_insert_ne in Hc0 by done.
  rewrite Hmc in Hc0. injection Hc0 as <-.
  minv H. destruct Hx as (c0 & Hc0 & Hdim'). cbn [self] in Hc0.
  rewrite !lookup_insert_ne in Hc0 by done.
  rewrite Hmc in Hc0. injection Hc0 as <-.
  minv H. destruct Hx as (c0 & Hc0 & Hnhead). cbn [self] in Hc0.
  rewrite !lookup_insert_ne in Hc0 by done.
  rewrite Hmc in Hc0. injection Hc0 as <-.
  to_path Hsize. to_path Hdim. to_path Hsize'. to_path Hdim'. to_path Hnhead.
  rewrite Hsize in Hsize'. injection Hsize' as <-.
  rewrite Hdim in Hdim'. injection Hdim' as <-.
  do 2 (minv H; try clear Hx).
  minv H. cbn [self] in Hx.
  rewrite lookup_insert_ne, lookup_insert_eq in Hx by done.
  injection Hx as <-.
  minv H. cbn [self] in Hx. rewrite lookup_insert_eq in Hx.
  injection Hx as <-.
  unfold setattr_obj, with_heap in H.
  cbn [self heap trace grad_enabled ext] in H.
  rewrite lookup_insert_eq in H. injection H as <-.
  apply lookup_insert_None in Hl4 as [Hl4 Hne].
  do 3 eexists. exists l3, l4, x0.
  do 3 (split; [eassumption|]).
  unfold param_data. cbn [self heap].
  split; [by rewrite lookup_insert_eq|].
  split.
  - by rewrite lookup_insert_eq, insert_empty.
  - by rewrite !lookup_insert_ne, lookup_insert_eq by congruence.
Qed.

(** ** The forward paths on unusual systems and batches *)

(** X10.  On a half-built system, with [use_matching] true and
    [text_matching] unbound, the matching stage of every forward path and
    [build_optimized_model] raise [AttributeError] for [text_matching] and
    leave the world as it is. *)
Theorem half_built_system_raises w em te m lf use (e : value) :
  wired w em te m lf use →
  truthy use = true →
  self w !! "text_matching" = None →
  match_texts e w = (Raise (AttributeError "text_matching"), w) ∧
  build_optimized_model w = (Raise (AttributeError "text_matching"), w).
Proof.
  intros (Hem & Hte & Hm & Hlf & Hu) Hon Htm. split.
  - unfold match_texts. mstep. rewrite Hon.
    erewrite bind_raise; [done|].
    unfold getattr_ref, getattr, bind. by rewrite Htm.
  - rewrite (build_optimized_model_run w te m em use) by done.
    by rewrite Hon, Htm.
Qed.

Lemma py_index_beyond {A} (l : list A) (i : Z) :
  Z.of_nat (length l) ≤ i → py_index l i = Raise IndexError.
Proof.
  intros Hi. unfold py_index.
  replace (i <? 0) with false by (symmetry; apply Z.ltb_ge; lia).
  replace (i <? Z.of_nat (length l)) with false
    by (symmetry; apply Z.ltb_ge; lia).
  by rewrite andb_false_r.
Qed.

(** X11.  [common_step] and [synth_step] do not check the length of the
    batch themselves.  On a batch of fewer than four elements both raise
    [IndexError] at [batch[3]], before any submodule is called and without
    any other effect. *)
Theorem forward_paths_short_batch (batch : list value) idx train w em :
  (length batch ≤ 3)%nat →
  self w !! "embedding_model" = Some (ARef em) →
  common_step batch idx train w = (Raise IndexError, w) ∧
  synth_step batch idx w = (Raise IndexError, w).
Proof.
  intros Hlen Hem.
  assert (py_index batch 3 = Raise IndexError) as Hi
    by (apply py_index_beyond; lia).
  split.
  - unfold common_step. mstep. erewrite bind_raise; [done|].
    by rewrite lift_run, Hi.
  - unfold synth_step. mstep. erewrite bind_raise; [done|].
    by rewrite lift_run, Hi.
Qed.

(** ** The synthesis path *)

Lemma synth_step_run (batch : list value) idx w em te m lf use tm
    (b2 b3 b4 blast e1 e2 e3 out : value) x1 x2 x3 x4 :
  let g := grad_enabled w in
  let kw := [("lang_args", blast); ("average_spk_emb", VBool true)] in
  wired w em te m lf use →
  py_index batch 3 = Ok b3 → py_index batch 4 = Ok b4 →
  py_index batch 2 = Ok b2 → py_index batch (-1) = Ok blast →
  forward em [b3] [] g (heap w) (ext w) = (Ok e1, x1) →
  forward te [e1] [("lengths", b4)] g (heap w) x1 = (Ok e2, x2) →
  matching_returns w g use tm e2 x2 e3 x3 →
  forward m ([b2; e3] ++ py_slice batch (Some 4) (Some 6)) kw g (heap w) x3
    = (Ok out, x4) →
  synth_step batch idx w =
    (Ok out,
     mkWorld (self w) (heap w)
       (trace w ++
          [EvForward "embedding_model" em [b3] [] g;
           EvForward "text_encoder" te [e1] [("lengths", b4)] g] ++
          matching_events g use tm e2 ++
          [EvForward "model" m
             ([b2; e3] ++ py_slice batch (Some 4) (Some 6)) kw g])
       g x4).
Proof.
  intros g kw (Hem & Hte & Hm & Hlf & Hu) I3 I4 I2 Il H1 H2 H3 H4.
  subst g. unfold synth_step.
  do 6 mstep.
  erewrite bind_ok; [ | eapply match_texts_run; wsimpl; eassumption ].
  wsimpl. do 3 mstep.
  erewrite call_ok; [|wsimpl; eassumption]. wsimpl.
  by rewrite <- !app_assoc.
Qed.

(** X12.  On a batch of 13 elements whose stages return, [synth_step]
    embeds element 3, encodes with lengths element 4, applies the matching
    module when matching is on, and calls the acoustic model on element 2,
    the texts and only elements 4 and 5, with the last element as
    [lang_args] and [average_spk_emb=True].  It returns the model's result,
    and the loss function is not called. *)
Theorem synth_step_data_flow
    (b0 b1 b2 b3 b4 b5 b6 b7 b8 b9 b10 b11 b12 : value) idx w
    em te m lf use tm (e1 e2 e3 out : value) x1 x2 x3 x4 :
  let batch := [b0; b1; b2; b3; b4; b5; b6; b7; b8; b9; b10; b11; b12] in
  let g := grad_enabled w in
  let kw := [("lang_args", b12); ("average_spk_emb", VBool true)] in
  wired w em te m lf use →
  forward em [b3] [] g (heap w) (ext w) = (Ok e1, x1) →
  forward te [e1] [("lengths", b4)] g (heap w) x1 = (Ok e2, x2) →
  matching_returns w g use tm e2 x2 e3 x3 →
  forward m [b2; e3; b4; b5] kw g (heap w) x3 = (Ok out, x4) →
  ∃ w',
    synth_step batch idx w = (Ok out, w') ∧
    trace w' =
      (trace w ++
         [EvForward "embedding_model" em [b3] [] g;
          EvForward "text_encoder" te [e1] [("lengths", b4)] g] ++
         matching_events g use tm e2 ++
         [EvForward "model" m [b2; e3; b4; b5] kw g])%list.
Proof.
  intros batch g kw Hw H1 H2 H3 H4.
  eexists. split.
  - eapply (synth_step_run batch); try eassumption; reflexivity.
  - reflexivity.
Qed.

(** ** What the forward paths emit *)

Ltac calls_tac :=
  split; [ rewrite !elem_of_cons; auto 10 | reflexivity ].

Lemma common_step_calls batch idx train :
  emits (λ _, True)
        (calls_among ["embedding_model"; "text_encoder"; "text_matching";
                      "model"; "loss_func"])
        (common_step batch idx train).
Proof. unfold common_step. emits_run calls_tac. Qed.

Lemma synth_step_calls batch idx :
  emits (λ _, True)
        (calls_among ["embedding_model"; "text_encoder"; "text_matching";
                      "model"])
        (synth_step batch idx).
Proof. unfold synth_step. emits_run calls_tac. Qed.

(** X13.  Every event that [common_step] appends to the trace, in a run
    that returns or raises, is a call through one of the five submodule
    attributes, made in the gradient mode the step was started in;
    [synth_step] never calls the loss function.  Neither logs metrics or
    looks up the language table, and both leave the attributes of the
    system, the object store and the gradient mode as they were. *)
Theorem forward_paths_emit_calls_only batch idx train :
  emits (λ _, True)
        (calls_among ["embedding_model"; "text_encoder"; "text_matching";
                      "model"; "loss_func"])
        (common_step batch idx train) ∧
  emits (λ _, True)
        (calls_among ["embedding_model"; "text_encoder"; "text_matching";
                      "model"])
        (synth_step batch idx).
Proof. split; [apply common_step_calls | apply synth_step_calls]. Qed.

(** ** The two steps in full *)

Lemma common_step_dict batch idx train w d out w' :
  common_step batch idx train w = (Ok (d, out), w') →
  ∃ l0 l1 l2 l3 l4 l5, d = loss_dict_of l0 l1 l2 l3 l4 l5.
Proof.
  unfold common_step. intros H.
  do 12 (apply bind_inv in H as (? & ? & _ & H)).
  apply bind_inv in H as (l0 & ? & _ & H).
  apply bind_inv in H as (l1 & ? & _ & H).
  apply bind_inv in H as (l2 & ? & _ & H).
  apply bind_inv in H as (l3 & ? & _ & H).
  apply bind_inv in H as (l4 & ? & _ & H).
  apply bind_inv in H as (l5 & ? & _ & H).
  unfold ret in H. injection H as <- _ _. by exists l0, l1, l2, l3, l4, l5.
Qed.

Lemma calls_among_no_log names g evs :
  Forall (calls_among names g) evs → filter is_log evs = [].
Proof.
  induction 1 as [|ev evs Hev _ IH]; [done|].
  rewrite filter_cons, IH. by destruct ev.
Qed.

Lemma common_step_frame batch idx train w r w1 :
  common_step batch idx train w = (r, w1) →
  self w1 = self w ∧ filter is_log (trace w1) = filter is_log (trace w).
Proof.
  intros Hc.
  destruct (common_step_calls batch idx train w I) as (Hs & _ & _ & evs & Ht & Hev).
  rewrite Hc in Hs, Ht. cbn [snd] in Hs, Ht. split; [done|].
  by rewrite Ht, filter_app, (calls_among_no_log _ _ _ Hev), app_nil_r.
Qed.

Lemma synth_step_frame batch idx w r w1 :
  synth_step batch idx w = (r, w1) →
  self w1 = self w ∧ filter is_log (trace w1) = filter is_log (trace w).
Proof.
  intros Hc.
  destruct (synth_step_calls batch idx w I) as (Hs & _ & _ & evs & Ht & Hev).
  rewrite Hc in Hs, Ht. cbn [snd] in Hs, Ht. split; [done|].
  by rewrite Ht, filter_app, (calls_among_no_log _ _ _ Hev), app_nil_r.
Qed.

Lemma metrics_of_run prefix (l0 l1 l2 l3 l4 l5 : value) w :
  metrics_of prefix (loss_dict_of l0 l1 l2 l3 l4 l5) w =
    (match val_item l0, val_item l1, val_item l2,
           val_item l3, val_item l4, val_item l5 with
     | Ok s0, Ok s1, Ok s2, Ok s3, Ok s4, Ok s5 =>
         Ok (metrics_named prefix s0 s1 s2 s3 s4 s5)
     | Raise e, _, _, _, _, _
     | Ok _, Raise e, _, _, _, _
     | Ok _, Ok _, Raise e, _, _, _
     | Ok _, Ok _, Ok _, Raise e, _, _
     | Ok _, Ok _, Ok _, Ok _, Raise e, _
     | Ok _, Ok _, Ok _, Ok _, Ok _, Raise e => Raise e
     end, w).
Proof.
  unfold metrics_of, loss_dict_of, metrics_named.
  cbn [mapM fst snd]. unfold bind, lift, ret.
  destruct (val_item l0); [|done]. destruct (val_item l1); [|done].
  destruct (val_item l2); [|done]. destruct (val_item l3); [|done].
  destruct (val_item l4); [|done]. by destruct (val_item l5).
Qed.

Lemma metrics_of_ok prefix (l0 l1 l2 l3 l4 l5 : value) s0 s1 s2 s3 s4 s5 w :
  val_item l0 = Ok s0 → val_item l1 = Ok s1 → val_item l2 = Ok s2 →
  val_item l3 = Ok s3 → val_item l4 = Ok s4 → val_item l5 = Ok s5 →
  metrics_of prefix (loss_dict_of l0 l1 l2 l3 l4 l5) w =
    (Ok (metrics_named prefix s0 s1 s2 s3 s4 s5), w).
Proof.
  intros H0 H1 H2 H3 H4 H5.
  by rewrite metrics_of_run, H0, H1, H2, H3, H4, H5.
Qed.

Lemma metrics_of_inv prefix (l0 l1 l2 l3 l4 l5 : value) ms w w' :
  metrics_of prefix (loss_dict_of l0 l1 l2 l3 l4 l5) w = (Ok ms, w') →
  w' = w ∧
  ∃ s0 s1 s2 s3 s4 s5,
    val_item l0 = Ok s0 ∧ val_item l1 = Ok s1 ∧ val_item l2 = Ok s2 ∧
    val_item l3 = Ok s3 ∧ val_item l4 = Ok s4 ∧ val_item l5 = Ok s5 ∧
    ms = metrics_named prefix s0 s1 s2 s3 s4 s5.
Proof.
  rewrite metrics_of_run.
  destruct (val_item l0) as [s0|]; [|done].
  destruct (val_item l1) as [s1|]; [|done].
  destruct (val_item l2) as [s2|]; [|done].
  destruct (val_item l3) as [s3|]; [|done].
  destruct (val_item l4) as [s4|]; [|done].
  destruct (val_item l5) as [s5|]; [|done].
  intros [= <- <-]. split; [done|].
  by exists s0, s1, s2, s3, s4, s5.
Qed.

(** X14.  [training_step] returns exactly when [common_step] returns, each
    of the six loss entries is a tensor with a single element and [bs] is
    bound.  It then appends one log event after the events of [common_step]:
    the six scalars under the names prefixed with [Train/], with
    [sync_dist=True] and the batch size.  It returns the first loss entry as
    [loss], the dictionary, the model's output and the batch it was given. *)
Theorem training_step_returns_iff batch idx w r w' :
  training_step batch idx w = (Ok r, w') ↔
  ∃ l0 l1 l2 l3 l4 l5 out w1 s0 s1 s2 s3 s4 s5 b,
    common_step batch idx true w
      = (Ok (loss_dict_of l0 l1 l2 l3 l4 l5, out), w1) ∧
    val_item l0 = Ok s0 ∧ val_item l1 = Ok s1 ∧ val_item l2 = Ok s2 ∧
    val_item l3 = Ok s3 ∧ val_item l4 = Ok s4 ∧ val_item l5 = Ok s5 ∧
    self w !! "bs" = Some (ACfg b) ∧
    r = mkTrainOut l0 (loss_dict_of l0 l1 l2 l3 l4 l5) out batch ∧
    w' = with_event
           (EvLog (metrics_named "Train/" s0 s1 s2 s3 s4 s5) true b) w1.
Proof.
  split.
  - unfold training_step. intros H.
    apply bind_inv in H as ([d out] & w1 & Hc & H).
    destruct (common_step_dict _ _ _ _ _ _ _ Hc)
      as (l0 & l1 & l2 & l3 & l4 & l5 & ->).
    destruct (common_step_frame _ _ _ _ _ _ Hc) as [Hs _].
    apply bind_inv in H as (ms & w2 & Hm & H).
    apply metrics_of_inv in Hm
      as (-> & s0 & s1 & s2 & s3 & s4 & s5 & H0 & H1 & H2 & H3 & H4 & H5 & ->).
    apply bind_inv in H as (b & w3 & Hb & H).
    apply getattr_cfg_inv in Hb as [-> Hb]. rewrite Hs in Hb.
    apply bind_inv in H as ([] & w4 & Hlog & H).
    unfold log_dict in Hlog. injection Hlog as <-.
    apply bind_inv in H as (total & w5 & Ht & H).
    unfold lift in Ht. injection Ht as Ht <-.
    unfold ret in H. injection H as <- <-.
    cbv in Ht. subst total.
    exists l0, l1, l2, l3, l4, l5, out, w1, s0, s1, s2, s3, s4, s5, b.
    repeat split; done.
  - intros (l0 & l1 & l2 & l3 & l4 & l5 & out & w1 & s0 & s1 & s2 & s3 & s4
            & s5 & b & Hc & H0 & H1 & H2 & H3 & H4 & H5 & Hb & -> & ->).
    destruct (common_step_frame _ _ _ _ _ _ Hc) as [Hs _].
    unfold training_step.
    erewrite bind_ok; [|exact Hc]. cbv beta iota.
    erewrite bind_ok; [|by apply metrics_of_ok].
    erewrite bind_ok; [|apply getattr_cfg_ok; by rewrite Hs].
    erewrite bind_ok; [|reflexivity].
    erewrite bind_ok; [|reflexivity].
    reflexivity.
Qed.

(** X15.  [validation_step] returns exactly when [common_step] returns,
    [synth_step], started in the world that [common_step] left, returns as
    well, the six loss entries are single-element tensors and [bs] is
    bound.  The log event, with the names prefixed with [Val/], comes after
    the events of both passes, and the result carries the synthesis
    output beside the fields of the training result. *)
Theorem validation_step_returns_iff batch idx w r w' :
  validation_step batch idx w = (Ok r, w') ↔
  ∃ l0 l1 l2 l3 l4 l5 out w1 synth w2 s0 s1 s2 s3 s4 s5 b,
    common_step batch idx false w
      = (Ok (loss_dict_of l0 l1 l2 l3 l4 l5, out), w1) ∧
    synth_step batch idx w1 = (Ok synth, w2) ∧
    val_item l0 = Ok s0 ∧ val_item l1 = Ok s1 ∧ val_item l2 = Ok s2 ∧
    val_item l3 = Ok s3 ∧ val_item l4 = Ok s4 ∧ val_item l5 = Ok s5 ∧
    self w !! "bs" = Some (ACfg b) ∧
    r = mkValOut l0 (loss_dict_of l0 l1 l2 l3 l4 l5) out batch synth ∧
    w' = with_event
           (EvLog (metrics_named "Val/" s0 s1 s2 s3 s4 s5) true b) w2.
Proof.
  split.
  - unfold validation_step. intros H.
    apply bind_inv in H as ([d out] & w1 & Hc & H).
    destruct (common_step_dict _ _ _ _ _ _ _ Hc)
      as (l0 & l1 & l2 & l3 & l4 & l5 & ->).
    destruct (common_step_frame _ _ _ _ _ _ Hc) as [Hs _].
    apply bind_inv in H as (synth & w2 & Hsy & H).
    destruct (synth_step_frame _ _ _ _ _ Hsy) as [Hs2 _].
    apply bind_inv in H as (ms & w3 & Hm & H).
    apply metrics_of_inv in Hm
      as (-> & s0 & s1 & s2 & s3 & s4 & s5 & H0 & H1 & H2 & H3 & H4 & H5 & ->).
    apply bind_inv in H as (b & w4 & Hb & H).
    apply getattr_cfg_inv in Hb as [-> Hb]. rewrite Hs2, Hs in Hb.
    apply bind_inv in H as ([] & w5 & Hlog & H).
    unfold log_dict in Hlog. injection Hlog as <-.
    apply bind_inv in H as (total & w6 & Ht & H).
    unfold lift in Ht. injection Ht as Ht <-.
    unfold ret in H. injection H as <- <-.
    cbv in Ht. subst total.
    exists l0, l1, l2, l3, l4, l5, out, w1, synth, w2, s0, s1, s2, s3, s4, s5, b.
    repeat split; done.
  - intros (l0 & l1 & l2 & l3 & l4 & l5 & out & w1 & synth & w2 & s0 & s1 & s2
            & s3 & s4 & s5 & b & Hc & Hsy & H0 & H1 & H2 & H3 & H4 & H5 & Hb
            & -> & ->).
    destruct (common_step_frame _ _ _ _ _ _ Hc) as [Hs _].
    destruct (synth_step_frame _ _ _ _ _ Hsy) as [Hs2 _].
    unfold validation_step.
    erewrite bind_ok; [|exact Hc]. cbv beta iota.
    erewrite bind_ok; [|exact Hsy].
    erewrite bind_ok; [|by apply metrics_of_ok].
    erewrite bind_ok; [|apply getattr_cfg_ok; by rewrite Hs2, Hs].
    erewrite bind_ok; [|reflexivity].
    erewrite bind_ok; [|reflexivity].
    reflexivity.
Qed.

(** the lines that both steps run after their forward passes *)
Lemma log_tail_run {R} prefix (l0 l1 l2 l3 l4 l5 : value) (mk : value → R) w1 :
  bind (metrics_of prefix (loss_dict_of l0 l1 l2 l3 l4 l5)) (λ loss_dict,
    bind (getattr_cfg "bs") (λ b,
      bind (log_dict loss_dict true b) (λ _,
        bind (lift (dict_get (loss_dict_of l0 l1 l2 l3 l4 l5) "Total Loss"))
          (λ total, ret (mk total))))) w1 =
  match (metrics_of prefix (loss_dict_of l0 l1 l2 l3 l4 l5) w1).1,
        self w1 !! "bs" with
  | Ok ms, Some (ACfg b) => (Ok (mk l0), with_event (EvLog ms true b) w1)
  | Ok _, Some (ARef _) => (Raise TypeError, w1)
  | Ok _, None => (Raise (AttributeError "bs"), w1)
  | Raise e, _ => (Raise e, w1)
  end.
Proof.
  rewrite (metrics_of_run prefix l0 l1 l2 l3 l4 l5 w1).
  unfold bind at 1. rewrite (metrics_of_run prefix l0 l1 l2 l3 l4 l5 w1).
  cbn [fst].
  destruct (match val_item l0 with Ok _ => _ | Raise _ => _ end) as [ms|e];
    [|done].
  unfold getattr_cfg, getattr, bind, ret, raise, log_dict, lift.
  by destruct (self w1 !! "bs") as [[b|l]|].
Qed.

Lemma length_filter_log_event (t : list event) ms sync b :
  length (filter is_log (t ++ [EvLog ms sync b])%list) =
    (length (filter is_log t) + 1)%nat.
Proof. by rewrite filter_app, length_app. Qed.

(** X16.  Metrics are logged once by a step that returns and not at all by a
    step that raises, wherever it raises: in a forward pass, on a loss
    entry that is not a single-element tensor, or because [bs] is unbound. *)
Theorem steps_log_once_or_never batch idx w :
  (∀ r w', training_step batch idx w = (r, w') →
     length (filter is_log (trace w')) =
       (length (filter is_log (trace w)) +
        match r with Ok _ => 1 | Raise _ => 0 end)%nat) ∧
  (∀ r w', validation_step batch idx w = (r, w') →
     length (filter is_log (trace w')) =
       (length (filter is_log (trace w)) +
        match r with Ok _ => 1 | Raise _ => 0 end)%nat).
Proof.
  split; intros r w'.
  - unfold training_step.
    destruct (common_step batch idx true w) as [[[d out]|e] w1] eqn:Hc.
    + destruct (common_step_dict _ _ _ _ _ _ _ Hc)
        as (l0 & l1 & l2 & l3 & l4 & l5 & ->).
      destruct (common_step_frame _ _ _ _ _ _ Hc) as [_ Hf].
      rewrite (bind_ok _ _ _ _ _ Hc). cbv beta iota.
      rewrite (log_tail_run "Train/" l0 l1 l2 l3 l4 l5
                 (λ total, mkTrainOut total _ out batch) w1).
      destruct (metrics_of _ _ w1).1 as [ms|e];
        [destruct (self w1 !! "bs") as [[b|l]|]|]; intros [= <- <-];
        cbn [trace with_event]; rewrite ?length_filter_log_event, Hf; lia.
    + destruct (common_step_frame _ _ _ _ _ _ Hc) as [_ Hf].
      rewrite (bind_raise _ _ _ _ _ Hc). intros [= <- <-]. rewrite Hf. lia.
  - unfold validation_step.
    destruct (common_step batch idx false w) as [[[d out]|e] w1] eqn:Hc.
    + destruct (common_step_dict _ _ _ _ _ _ _ Hc)
        as (l0 & l1 & l2 & l3 & l4 & l5 & ->).
      destruct (common_step_frame _ _ _ _ _ _ Hc) as [_ Hf].
      rewrite (bind_ok _ _ _ _ _ Hc). cbv beta iota.
      destruct (synth_step batch idx w1) as [[synth|e] w2] eqn:Hsy.
      * destruct (synth_step_frame _ _ _ _ _ Hsy) as [_ Hf2].
        rewrite (bind_ok _ _ _ _ _ Hsy).
        rewrite (log_tail_run "Val/" l0 l1 l2 l3 l4 l5
                   (λ total, mkValOut total _ out batch synth) w2).
        destruct (metrics_of _ _ w2).1 as [ms|e];
          [destruct (self w2 !! "bs") as [[b|l]|]|]; intros [= <- <-];
          cbn [trace with_event]; rewrite ?length_filter_log_event, Hf2, Hf;
          lia.
      * destruct (synth_step_frame _ _ _ _ _ Hsy) as [_ Hf2].
        rewrite (bind_raise _ _ _ _ _ Hsy). intros [= <- <-].
        rewrite Hf2, Hf. lia.
    + destruct (common_step_frame _ _ _ _ _ _ Hc) as [_ Hf].
      rewrite (bind_raise _ _ _ _ _ Hc). intros [= <- <-]. rewrite Hf. lia.
Qed.

(** ** Arrays without an axis *)

(** X17.  When the reference slice has no axis, [inference] raises
    [IndexError] on [shape[0]], whatever the other arguments are: no lookup
    in the language table has been made, no submodule called, and the world
    is as before. *)
Theorem inference_slice_without_axis mel text symbol_id lang_id w :
  np_shape mel = [] →
  inference mel text symbol_id lang_id w = (Raise IndexError, w).
Proof.
  intros Hmel. unfold inference. rewrite Hmel, py_index_nil.
  by erewrite bind_raise.
Qed.

(** X18.  When the text has no axis (and the slice has one, and the language
    is absent or known), [inference] raises [TypeError] on [len(text)]:
    after the lookup in the language table, before gradient tracking is
    switched off and before any submodule is called. *)
Theorem inference_text_without_axis mel text symbol_id lang_id w n0 s0
    (lang_args : value) :
  np_shape mel = n0 :: s0 →
  np_shape text = [] →
  language_args lang_id = Some lang_args →
  inference mel text symbol_id lang_id w =
    (Raise TypeError,
     mkWorld (self w) (heap w) (trace w ++ lookup_events lang_id)
       (grad_enabled w) (ext w)).
Proof.
  intros Hmel Htext Hlang. unfold inference. rewrite Hmel, py_index_0.
  erewrite bind_ok; [|apply lift_run].
  set (w0 := mkWorld (self w) (heap w) (trace w ++ lookup_events lang_id)
               (grad_enabled w) (ext w)).
  erewrite (bind_ok _ _ w lang_args w0).
  2:{ destruct lang_id as [name|]; simpl in Hlang.
      - destruct (LANG_NAME2ID !! name) as [i|] eqn:Hi; [|done].
        injection Hlang as <-.
        erewrite bind_ok; [|by apply lang_name2id_ok]. done.
      - injection Hlang as <-. subst w0. simpl. rewrite app_nil_r.
        by destruct w. }
  erewrite bind_raise; [done|].
  unfold np_len. by rewrite Htext.
Qed.

(** ** The slices of a batch *)

(** X19.  The two forward paths cut the batch consistently, whatever its
    length: the targets [batch[:-1]] handed to the loss function, followed
    by the language tag [batch[-1]] of [synth_step], make up the batch
    again, and the conditioning [batch[4:6]] of [synth_step] is a prefix of
    the conditioning [batch[4:]] of [common_step]. *)
Theorem batch_slices (batch : list value) :
  (∀ tag, py_index batch (-1) = Ok tag →
     (py_slice batch None (Some (-1)) ++ [tag])%list = batch) ∧
  py_slice batch (Some 4) (Some 6) `prefix_of` py_slice batch (Some 4) None.
Proof.
  split.
  - intros tag. unfold py_index, py_slice, clamp. cbn [from_option Z.ltb Z.compare].
    destruct ((0 <=? -1 + Z.of_nat (length batch))
              && (-1 + Z.of_nat (length batch) <? Z.of_nat (length batch)))
      eqn:Hb; [|done].
    apply andb_prop in Hb as [Hlo _]. apply Z.leb_le in Hlo.
    destruct (batch !! Z.to_nat (-1 + Z.of_nat (length batch)))
      as [v|] eqn:Hv; [|done].
    intros [= ->].
    replace (Z.to_nat (Z.max (-1 + Z.of_nat (length batch)) 0 - 0))
      with (Z.to_nat (-1 + Z.of_nat (length batch))) by lia.
    cbn [Z.to_nat drop].
    rewrite <- (take_drop (Z.to_nat (-1 + Z.of_nat (length batch))) batch) at 3.
    f_equal. rewrite (drop_S _ _ _ Hv), drop_ge; [done|]. lia.
  - unfold py_slice. cbn [from_option].
    rewrite (take_ge (drop _ _) (Z.to_nat (Z.of_nat (length batch) - _))).
    + apply prefix_take.
    + rewrite length_drop. lia.
Qed.

(** ** The interface to the submodules *)

Ltac keywords_tac :=
  split; [ reflexivity
         | intros ?; rewrite ?elem_of_cons, ?elem_of_nil;
           intros; intuition congruence ].

Lemma common_step_keywords batch idx train :
  emits (λ _, True) (keywords_as training_keywords)
        (common_step batch idx train).
Proof. unfold common_step. emits_run keywords_tac. Qed.

Lemma synth_step_keywords batch idx :
  emits (λ _, True) (keywords_as synthesis_keywords) (synth_step batch idx).
Proof. unfold synth_step. emits_run keywords_tac. Qed.

Lemma inference_keywords mel text symbol_id lang_id :
  emits (λ _, True) (keywords_as synthesis_keywords)
        (inference mel text symbol_id lang_id).
Proof.
  unfold inference. emits_run ltac:(exact I).
  eapply emits_no_grad with (P := keywords_as synthesis_keywords); [|done].
  emits_run keywords_tac.
Qed.

(** X20.  In every run, returning or raising, the training path calls the
    text encoder with the single keyword [lengths] and every other
    submodule without keywords.  The synthesis paths, [synth_step] and
    [inference], do the same except for the acoustic model, which they call
    with the keywords [lang_args] and [average_spk_emb], the latter always
    [True]. *)
Theorem submodule_keywords batch idx train mel text symbol_id lang_id :
  emits (λ _, True) (keywords_as training_keywords)
        (common_step batch idx train) ∧
  emits (λ _, True) (keywords_as synthesis_keywords) (synth_step batch idx) ∧
  emits (λ _, True) (keywords_as synthesis_keywords)
        (inference mel text symbol_id lang_id).
Proof.
  split; [apply common_step_keywords|].
  split; [apply synth_step_keywords | apply inference_keywords].
Qed.

(** X21.  Every event that [inference] appends, in a run that returns or
    raises, is a lookup in the language table or a call through
    [embedding_model], [text_encoder], [text_matching] or [model] made
    with gradient tracking off: it never calls the loss function and never
    logs, and it leaves the attributes, the object store and the gradient
    mode as they were. *)
Theorem inference_emits mel text symbol_id lang_id :
  emits (λ _, True) inference_event (inference mel text symbol_id lang_id).
Proof.
  unfold inference. emits_run ltac:(by left).
  eapply emits_no_grad
    with (P := calls_among ["embedding_model"; "text_encoder";
                            "text_matching"; "model"]).
  - emits_run calls_tac.
  - intros g ev Hev. by right.
Qed.

End Properties.

(** * The properties on the concrete backend *)

Section Concrete.
Import Toy.
#[local] Existing Instance backend.

Abbreviation tvalue := (val (list Z)).

Example batch_of_12_rejected :
  on_train_batch_start (B:=backend) (take 12 batch13) 0 0 (built false) =
    (Raise (AssertionError "data with 13 elements, but get 12"), built false).
Proof. reflexivity. Qed.

Example batch_of_14_rejected :
  on_validation_batch_start (B:=backend) (batch13 ++ [VNone]) 0 0 (built true) =
    (Raise (AssertionError "data with 13 elements, but get 14"), built true).
Proof. reflexivity. Qed.

Example steps_return_on_batch13 :
  match training_step batch13 0 (built true),
        validation_step batch13 0 (built true) with
  | (Ok rt, _), (Ok rv, _) =>
      t_losses rt = v_losses rv ∧
      t_losses rt = loss_dict_of (VTensor [6]) (VTensor [6]) (VTensor [6])
                      (VTensor [6]) (VTensor [6]) (VTensor [6])
  | _, _ => False
  end.
Proof. vm_compute. split; reflexivity. Qed.

Lemma matching_disabled_witness :
  config (B:=backend) "model_config" ["use_matching"] (configured false)
    = (Ok (CBool false), configured false) ∧
  build_model (B:=backend) (configured false) = (Ok tt, built false) ∧
  self (built false) !! "text_matching" = None ∧
  self (built false) !! "shared_emb_banks" = None ∧
  match_texts (B:=backend) (VTensor [2]) (built false)
    = (Ok (VTensor [2]), built false).
Proof.
  assert (config (B:=backend) "model_config" ["use_matching"] (configured false)
            = (Ok (CBool false), configured false)) as Hcfg
    by (vm_compute; reflexivity).
  assert (build_model (B:=backend) (configured false) = (Ok tt, built false))
    as Hbuild by (vm_compute; reflexivity).
  destruct (matching_disabled (B:=backend) (configured false) (built false)
              (CBool false) Hcfg eq_refl Hbuild)
    as (Htm & Hsb & _ & _ & Hskip & _).
  split; [exact Hcfg|]. split; [exact Hbuild|].
  split; [rewrite Htm; vm_compute; reflexivity|].
  split; [rewrite Hsb; vm_compute; reflexivity|].
  apply Hskip. reflexivity.
Defined.

Lemma optimized_modules_witness :
  build_model (configured true) = (Ok tt, built true) ∧
  ∃ use em te m lf mods,
    config "model_config" ["use_matching"] (configured true)
      = (Ok use, configured true) ∧
    wired (built true) em te m lf use ∧
    build_optimized_model (built true) = (Ok mods, built true) ∧
    (lf ∉ mods) ∧
    (if truthy use then
       ∃ tm, self (built true) !! "text_matching" = Some (ARef tm) ∧
             mods = [te; m; em; tm]
     else mods = [te; m; em]).
Proof.
  split; [vm_compute; reflexivity|].
  apply (optimized_modules (configured true) (built true)).
  vm_compute; reflexivity.
Defined.

Lemma emb_banks_aliased_witness :
  build_model (configured true) = (Ok tt, built true) ∧
  ∃ p,
    system_banks (built true) = Some p ∧
    matching_banks (built true) = Some p ∧
    is_Some (param_data (built true) p) ∧
    ∀ updates t,
      let w1 := apply_updates updates (built true) in
      system_banks w1 = Some p ∧ matching_banks w1 = Some p ∧
      read_via system_banks w1 = read_via matching_banks w1 ∧
      read_via matching_banks (update_via system_banks t w1) = Some t ∧
      read_via system_banks (update_via matching_banks t w1) = Some t.
Proof.
  split; [vm_compute; reflexivity|].
  apply (emb_banks_aliased (configured true) (built true) (CBool true)).
  - vm_compute; reflexivity.
  - reflexivity.
  - vm_compute; reflexivity.
Defined.


Lemma common_step_data_flow_witness :
  ∃ w',
    common_step batch13 0 true (built true) =
      (Ok (loss_dict_of (VTensor [6]) (VTensor [6]) (VTensor [6])
             (VTensor [6]) (VTensor [6]) (VTensor [6]),
           VTuple (replicate 10 (VTensor [5]))), w') ∧
    forward_name <$> trace w' =
      [Some "embedding_model"; Some "text_encoder"; Some "text_matching";
       Some "model"; Some "loss_func"].
Proof.
  destruct (common_step_data_flow
              (VInt 0) (VInt 1) (VInt 2) (VInt 3) (VInt 4) (VInt 5) (VInt 6)
              (VInt 7) (VInt 8) (VInt 9) (VInt 10) (VInt 11) (VInt 12)
              0 true (built true) 1%positive 2%positive 3%positive
              4%positive (CBool true) 6%positive
              (VTensor [1]) (VTensor [2]) (VTensor [3])
              (VTuple (replicate 10 (VTensor [5])))
              (VTuple (replicate 6 (VTensor [6])))
              (VTensor [6]) (VTensor [6]) (VTensor [6])
              (VTensor [6]) (VTensor [6]) (VTensor [6])
              2%N 3%N 4%N 5%N 6%N) as (w' & Hrun & Htrace).
  - repeat split; vm_compute; reflexivity.
  - vm_compute; reflexivity.
  - vm_compute; reflexivity.
  - split; [vm_compute; reflexivity|].
    exists (VTuple [VTensor [3]; VTensor [4]]), (VTensor [4]).
    split; vm_compute; reflexivity.
  - vm_compute; reflexivity.
  - vm_compute; reflexivity.
  - reflexivity.
  - reflexivity.
  - reflexivity.
  - reflexivity.
  - reflexivity.
  - reflexivity.
  - exists w'. split; [exact Hrun|]. rewrite Htrace. reflexivity.
Defined.

(** ** Further properties on the concrete backend *)

Lemma build_configs_returns_witness :
  build_configs (fresh_world true) = (Ok tt, configured true) ∧
  self (configured true) !! "bs" = Some (ACfg (CInt 8)) ∧
  self (configured true) !! "spk_config" =
    Some (ACfg (spk_config_of (CStr "table") (CList [CStr "spk0"]))).
Proof.
  pose proof (build_configs_returns (fresh_world true) (model_config true)
                (CList []) train_config (CStr "table") (CList [CStr "spk0"])
                (CInt 8) eq_refl eq_refl eq_refl eq_refl eq_refl eq_refl) as H.
  split; [rewrite H; vm_compute; reflexivity|].
  split; vm_compute; reflexivity.
Defined.

Lemma build_configs_without_speaker_emb_witness :
  build_configs (world_with (CDict []) train_config) =
    (Raise (KeyError "speaker_emb"), world_with (CDict []) train_config).
Proof.
  apply (build_configs_without_speaker_emb _ []); reflexivity.
Defined.

Lemma build_configs_without_optimizer_witness :
  build_configs (world_with (model_config false) (CDict [])) =
    (Raise (KeyError "optimizer"),
     with_self
       (insert "spk_config"
          (ACfg (spk_config_of (CStr "table") (CList [CStr "spk0"]))))
       (world_with (model_config false) (CDict []))).
Proof.
  apply (build_configs_without_optimizer _ [] (model_config false) (CList []));
    reflexivity.
Defined.


Lemma build_model_before_build_configs_witness :
  (build_model (fresh_world false)).1 = Raise (AttributeError "spk_config") ∧
  (∃ te, self (build_model (fresh_world false)).2 !! "text_encoder"
           = Some (ARef te)) ∧
  self (build_model (fresh_world false)).2 !! "model" = None.
Proof.
  destruct (build_model_before_build_configs (fresh_world false)
              (model_config false) (CList []) (CBool false) (CInt 4)
              (CDict [("en", CList [CStr "a"])]) (CDict []))
    as (em & te & _ & _ & _ & H); try (vm_compute; reflexivity).
  rewrite H. cbn [fst snd self].
  split; [reflexivity|]. split.
  - exists te. by rewrite lookup_insert_eq.
  - rewrite !lookup_insert_ne by done. vm_compute; reflexivity.
Defined.

Lemma build_model_without_use_matching_witness :
  build_model (world_with (CDict []) train_config) =
    (Raise (KeyError "use_matching"), world_with (CDict []) train_config).
Proof.
  apply (build_model_without_use_matching _ []); reflexivity.
Defined.

Lemma build_model_matching_section_missing_witness :
  (build_model configured_no_section).1 = Raise (KeyError "matching") ∧
  self half_built !! "text_matching" = None ∧
  self half_built !! "loss_func" = Some (ARef 4%positive).
Proof.
  destruct (build_model_matching_section_missing configured_no_section
              model_config_no_section (CList [])
              (spk_config_of (CStr "table") (CList [CStr "spk0"]))
              (CBool true) (CInt 4) (CDict [("en", CList [CStr "a"])])
              (CDict []) (KeyError "matching"))
    as (H & _ & _ & Htm); try (vm_compute; reflexivity).
  split; [exact H|]. split.
  - unfold half_built. rewrite Htm. vm_compute; reflexivity.
  - vm_compute; reflexivity.
Defined.

Lemma build_model_frame_witness :
  build_model (configured true) = (Ok tt, built true) ∧
  self (built true) !! "bs" = Some (ACfg (CInt 8)) ∧
  trace (built true) = [].
Proof.
  assert (build_model (configured true) = (Ok tt, built true)) as Hb
    by (vm_compute; reflexivity).
  destruct (build_model_frame (configured true) (built true) Hb)
    as (Hs & _ & Ht & _).
  split; [exact Hb|]. split.
  - rewrite Hs; [vm_compute; reflexivity|].
    refine (bool_decide_unpack _ _). vm_compute. exact I.
  - rewrite Ht. reflexivity.
Defined.

Lemma bank_shape_matches_module_witness :
  build_model (configured true) = (Ok tt, built true) ∧
  ∃ r c nhead p tm x,
    lookup_path (model_config true) ["matching"; "codebook_size"]
      = Ok (CInt r) ∧
    lookup_path (model_config true) ["matching"; "dim"] = Ok (CInt c) ∧
    lookup_path (model_config true) ["matching"; "nhead"] = Ok nhead ∧
    self (built true) !! "text_matching" = Some (ARef tm) ∧
    heap (built true) !! tm =
      Some (OModule SoftMultiAttCodebook
              [("codebook_size", CInt r); ("embed_dim", CInt c);
               ("num_heads", nhead)]
              {["emb_banks" := p]}) ∧
    param_data (built true) p = Some (randn r c x).1.
Proof.
  assert (build_model (configured true) = (Ok tt, built true)) as Hb
    by (vm_compute; reflexivity).
  split; [exact Hb|].
  apply (bank_shape_matches_module (configured true) (built true)
           (model_config true) (CBool true));
    [vm_compute; reflexivity | reflexivity | reflexivity | exact Hb].
Defined.

Lemma half_built_system_raises_witness :
  match_texts (VTensor [2]) half_built
    = (Raise (AttributeError "text_matching"), half_built) ∧
  build_optimized_model half_built
    = (Raise (AttributeError "text_matching"), half_built).
Proof.
  apply (half_built_system_raises half_built 1%positive 2%positive 3%positive
           4%positive (CBool true)).
  - repeat split; vm_compute; reflexivity.
  - reflexivity.
  - vm_compute; reflexivity.
Defined.

Lemma forward_paths_short_batch_witness :
  common_step (take 3 batch13) 0 true (built false)
    = (Raise IndexError, built false) ∧
  synth_step (take 3 batch13) 0 (built false)
    = (Raise IndexError, built false).
Proof.
  apply (forward_paths_short_batch (B:=backend) (take 3 batch13) 0 true
           (built false) 1%positive).
  - vm_compute. lia.
  - vm_compute; reflexivity.
Defined.

Lemma synth_step_data_flow_witness :
  ∃ w',
    synth_step batch13 0 (built true) =
      (Ok (VTuple (replicate 10 (VTensor [5]))), w') ∧
    forward_kwargs <$> trace w' =
      [Some []; Some [("lengths", VInt 4)]; Some [];
       Some [("lang_args", VInt 12); ("average_spk_emb", VBool true)]].
Proof.
  destruct (synth_step_data_flow
              (VInt 0) (VInt 1) (VInt 2) (VInt 3) (VInt 4) (VInt 5) (VInt 6)
              (VInt 7) (VInt 8) (VInt 9) (VInt 10) (VInt 11) (VInt 12)
              0 (built true) 1%positive 2%positive 3%positive
              4%positive (CBool true) 6%positive
              (VTensor [1]) (VTensor [2]) (VTensor [3])
              (VTuple (replicate 10 (VTensor [5])))
              2%N 3%N 4%N 5%N) as (w' & Hrun & Htrace).
  - repeat split; vm_compute; reflexivity.
  - vm_compute; reflexivity.
  - vm_compute; reflexivity.
  - split; [vm_compute; reflexivity|].
    exists (VTuple [VTensor [3]; VTensor [4]]), (VTensor [4]).
    split; vm_compute; reflexivity.
  - vm_compute; reflexivity.
  - exists w'. split; [exact Hrun|]. rewrite Htrace. reflexivity.
Defined.

Lemma inference_slice_without_axis_witness :
  inference (B:=scalar_backend) None (Some [7; 8; 9]) "en" (Some "xx")
    empty_world = (Raise IndexError, empty_world).
Proof.
  apply (inference_slice_without_axis (B:=scalar_backend)). reflexivity.
Defined.

Lemma inference_text_without_axis_witness :
  inference (B:=scalar_backend) (Some [1; 2]) None "en" (Some "zh")
    empty_world =
    (Raise TypeError,
     mkWorld (B:=scalar_backend) ∅ ∅ [EvLookup "zh"] true 0%N).
Proof.
  apply (inference_text_without_axis (B:=scalar_backend) (Some [1; 2]) None
           "en" (Some "zh") empty_world 2 [] (VTensor [1])).
  - reflexivity.
  - reflexivity.
  - vm_compute; reflexivity.
Defined.

Example training_step_logs_on_batch13 :
  filter is_log (trace (training_step batch13 0 (built true)).2) =
    [EvLog (metrics_named "Train/" 6 6 6 6 6 6) true (CInt 8)].
Proof. vm_compute. reflexivity. Qed.

End Concrete.
